(** * scale_map.py: a two-stage map/reduce over a directory of integer files

    A shallow embedding of [src/scale_map.py] (functions [load_dotenv],
    [mapper], [run_mappers], [reducer], [main] and the configuration read
    when the module is loaded) together with the parts of the Python
    runtime they rely on: [str.strip], [int], text-mode line iteration,
    insertion-ordered dictionaries, the stable [sorted], [json.dump] /
    [json.load], [glob], [open] and [ProcessPoolExecutor.map].

    Modelling conventions.
    - Text is a [string] whose characters are the decoded code points
      0..255; failures of the text decoder are outside the model: a file
      that is read is one whose bytes decode.
    - A Python [dict] is an association list in insertion order with
      unique keys: iteration order, [json.dump] and the tie-break of the
      stable sort all depend on that order.
    - The file system is two flat directories, the data directory
      [DATA_DIR] and the reducer directory [REDUCER_DIR], assumed to be
      different directories; a directory is the list of its entries in
      listing order (the order [glob] returns them in).  A directory
      that exists can be listed and searched.  A file is named by the
      name of its entry: [open] on any other name is not covered.  A
      file that the process may open can be read and overwritten, on
      any other file [open] raises [PermissionError]; a new file is
      listed last and may be opened.  Limits on the length of names are
      not modelled.
    - [glob] is given a pattern made of the path of a directory and a
      pattern for the names in it.  The listing of a directory is what
      [glob] finds when the path holds no pattern character; the
      statements that depend on the path say so with [has_magic].
    - Exceptions are values of [exn]; a computation that raises returns
      [Raise e].  [OutOfModel] marks behaviour that the embedding does not
      cover (JSON documents other than objects with integer members,
      [open] on a name that is not the name of an entry).
    - An [int] is a [Z]; the interpreter's bound on the length of a
      decimal string given to [int] is not modelled.
    - The worker processes run under a schedule, a list of dispatch and
      completion events given to [run_mappers] and [main]; the lines one
      [mapper] call prints reach the console together.  The console is
      written line by line, a line being on it when [print] returns, as
      on a terminal. *)

From Stdlib Require Import ZArith NArith List String Ascii Bool Lia.
From Stdlib Require Import DecimalString DecimalN DecimalPos DecimalFacts.
From Stdlib Require Import Permutation Sorted.
From stdpp Require Import base list strings gmap.

Local Open Scope Z_scope.
Local Open Scope list_scope.

(* ================================================================== *)
(** ** Exceptions and results *)

Inductive exn : Type :=
| FileNotFoundError
| PermissionError
| IsADirectoryError
| JSONDecodeError
| ValueError.

Inductive result (A : Type) : Type :=
| Ok (a : A)
| Raise (e : exn)
| OutOfModel.

Arguments Ok {A} a.
Arguments Raise {A} e.
Arguments OutOfModel {A}.

(** The error monad; [x ← c; k] is stdpp's notation for [mbind]. *)
#[global] Instance result_bind : MBind result := fun A B k r =>
  match r with
  | Ok a => k a
  | Raise e => Raise e
  | OutOfModel => OutOfModel
  end.

#[global] Instance result_ret : MRet result := fun A a => Ok a.

(* ================================================================== *)
(** ** Python strings: [str.strip], [int], [str] of an integer *)

Definition chr (n : nat) : ascii := ascii_of_nat n.
Definition LF : ascii := chr 10.
Definition CR : ascii := chr 13.

(** [str.isspace] on the code points 0..255: TAB..CR, FS..US, space,
    NEL (0x85) and NBSP (0xA0). *)
Definition is_space (c : ascii) : bool :=
  let n := nat_of_ascii c in
  (((9 <=? n) && (n <=? 13)) || ((28 <=? n) && (n <=? 32))
   || (n =? 133) || (n =? 160))%nat.

Fixpoint lstrip (s : string) : string :=
  match s with
  | EmptyString => EmptyString
  | String c r => if is_space c then lstrip r else s
  end.

Fixpoint rstrip (s : string) : string :=
  match s with
  | EmptyString => EmptyString
  | String c r =>
      match rstrip r with
      | EmptyString => if is_space c then EmptyString else String c EmptyString
      | r' => String c r'
      end
  end.

(** [s.strip()] *)
Definition strip (s : string) : string := rstrip (lstrip s).

(** [s.lstrip(q)], [s.rstrip(q)] and [s.strip(q)] for a one-character
    string [q]. *)
Fixpoint lstrip_char (q : ascii) (s : string) : string :=
  match s with
  | EmptyString => EmptyString
  | String c r => if Ascii.eqb c q then lstrip_char q r else s
  end.

Fixpoint rstrip_char (q : ascii) (s : string) : string :=
  match s with
  | EmptyString => EmptyString
  | String c r =>
      match rstrip_char q r with
      | EmptyString => if Ascii.eqb c q then EmptyString else String c EmptyString
      | r' => String c r'
      end
  end.

Definition strip_char (q : ascii) (s : string) : string :=
  rstrip_char q (lstrip_char q s).

(** [q in s] for a one-character string [q]. *)
Fixpoint has_char (q : ascii) (s : string) : bool :=
  match s with
  | EmptyString => false
  | String c r => (Ascii.eqb c q || has_char q r)%bool
  end.

Definition digit_of (c : ascii) : option N :=
  let n := N_of_ascii c in
  if ((48 <=? n) && (n <=? 57))%N then Some (n - 48)%N else None.

(** The digits of an [int] literal after the first one: each further digit
    may be preceded by a single underscore. *)
Fixpoint int_digits (acc : N) (s : string) : option N :=
  match s with
  | EmptyString => Some acc
  | String c r =>
      match digit_of c with
      | Some d => int_digits (acc * 10 + d)%N r
      | None =>
          if Ascii.eqb c "_" then
            match r with
            | String c' r' =>
                match digit_of c' with
                | Some d => int_digits (acc * 10 + d)%N r'
                | None => None
                end
            | EmptyString => None
            end
          else None
      end
  end.

Definition int_unsigned (s : string) : option N :=
  match s with
  | String c r =>
      match digit_of c with
      | Some d => int_digits d r
      | None => None
      end
  | EmptyString => None
  end.

(** [int(s)] for a [str] in base 10; [None] is [ValueError]. *)
Definition py_int (s : string) : option Z :=
  match strip s with
  | String c r =>
      if Ascii.eqb c "-" then option_map (fun n => - Z.of_N n) (int_unsigned r)
      else if Ascii.eqb c "+" then option_map Z.of_N (int_unsigned r)
      else option_map Z.of_N (int_unsigned (String c r))
  | EmptyString => None
  end.

(** [str(z)] (also [repr], and the [{z}] of an f-string) for an [int]. *)
Definition py_str (z : Z) : string := NilZero.string_of_int (Z.to_int z).

(** [str(i)] for an index of [enumerate]. *)
Definition py_str_nat (i : nat) : string := py_str (Z.of_nat i).

(** Iterating a file opened in text mode: universal newlines turn a CR LF
    pair and a lone CR into LF, and every line keeps its LF. *)
Fixpoint readlines (s : string) : list string :=
  match s with
  | EmptyString => []
  | String c r =>
      if Ascii.eqb c LF then String LF EmptyString :: readlines r
      else if Ascii.eqb c CR then
        match r with
        | String c' r' =>
            if Ascii.eqb c' LF then String LF EmptyString :: readlines r'
            else String LF EmptyString :: readlines r
        | EmptyString => [String LF EmptyString]
        end
      else
        match readlines r with
        | [] => [String c EmptyString]
        | l :: ls => String c l :: ls
        end
  end.

(** [os.path.join(a, b)] on POSIX. *)
Definition ends_with_slash (s : string) : bool :=
  match get (String.length s - 1) s with
  | Some c => Ascii.eqb c "/"
  | None => false
  end.

Definition path_join (a b : string) : string :=
  match b with
  | String c _ =>
      if Ascii.eqb c "/" then b
      else if (String.eqb a "" || ends_with_slash a)%bool then append a b
      else append a (String "/" b)
  | EmptyString =>
      if (String.eqb a "" || ends_with_slash a)%bool then a
      else append a "/"
  end.

(** [glob.has_magic(s)]: does [s] hold one of the characters that [glob]
    reads as a pattern, a star, a question mark or an opening bracket? *)
Definition has_magic (s : string) : bool :=
  (has_char "*" s || has_char "?" s || has_char "[" s)%bool.

(** The directory part of the pattern [os.path.join(dir, '*')], as
    [glob] takes it with [os.path.split]: the pattern up to its last
    slash, without the slashes at its end unless it is made of slashes
    only. *)
Definition pattern_dir (dir : string) : string :=
  let head := if (String.eqb dir "" || ends_with_slash dir)%bool then dir
              else append dir "/" in
  match rstrip_char "/" head with
  | EmptyString => head
  | stripped => stripped
  end.

(** The path [glob(os.path.join(dir, '*'))] returns for the entry [name]
    of a directory [dir] that holds no pattern character: [name] alone
    when the directory part is empty, [os.path.join] of the directory
    part and [name] otherwise. *)
Definition glob_path (dir name : string) : string :=
  match pattern_dir dir with
  | EmptyString => name
  | dirname => path_join dirname name
  end.

(* ================================================================== *)
(** ** Dictionaries and sorting *)

(** A [dict] with [int] keys and [int] values, in insertion order. *)
Definition dict : Type := list (Z * Z).

(** A decoded JSON object: [str] keys, [int] values, in insertion order. *)
Definition jobject : Type := list (string * Z).

Fixpoint dict_get (k : Z) (d : dict) : option Z :=
  match d with
  | [] => None
  | (k', v) :: r => if k' =? k then Some v else dict_get k r
  end.

(** [d.get(k, 0)]: the count of [k], an absent key counting as 0. *)
Definition count_of (k : Z) (d : dict) : Z :=
  match dict_get k d with
  | Some v => v
  | None => 0
  end.

Definition keys {K V : Type} (d : list (K * V)) : list K := map fst d.

(** [d[k] += c] on a [defaultdict(int)]: a present key is updated in
    place, a missing one is first given the default 0 and is listed last. *)
Fixpoint dict_add (k c : Z) (d : dict) : dict :=
  match d with
  | [] => [(k, 0 + c)]
  | (k', v) :: r =>
      if k' =? k then (k', v + c) :: r else (k', v) :: dict_add k c r
  end.

(** [d[k] = v] on a [dict] with [str] keys. *)
Fixpoint jobject_set (k : string) (v : Z) (d : jobject) : jobject :=
  match d with
  | [] => [(k, v)]
  | (k', v') :: r =>
      if String.eqb k' k then (k', v) :: r else (k', v') :: jobject_set k v r
  end.

(** One step of the stable descending sort: [x] stood in front of the
    already sorted [l] and stays in front of the entries of equal count. *)
Fixpoint insert_desc (x : Z * Z) (l : list (Z * Z)) : list (Z * Z) :=
  match l with
  | [] => [x]
  | y :: r => if snd x <? snd y then y :: insert_desc x r else x :: y :: r
  end.

(** [sorted(items, key=lambda item: item[1], reverse=True)]: descending by
    count, and stable (entries of equal count keep their order). *)
Definition sorted_by_count_desc (items : list (Z * Z)) : list (Z * Z) :=
  fold_right insert_desc [] items.

(* ================================================================== *)
(** ** [json.dump] of a frequency mapping and [json.load] *)

Definition quote : ascii := chr 34.
Definition backslash : ascii := chr 92.

(** One member, as [json.dump] writes it: the [int] key becomes the JSON
    string of its decimal form. *)
Definition dump_member (kv : Z * Z) : string :=
  String quote (py_str (fst kv) +:+ String quote (": " +:+ py_str (snd kv))).

Fixpoint dump_members (d : dict) : string :=
  match d with
  | [] => ""
  | [kv] => dump_member kv
  | kv :: r => dump_member kv +:+ ", " +:+ dump_members r
  end.

(** [json.dump(d, f)] with the default separators. *)
Definition json_dump (d : dict) : string :=
  String "{" (dump_members d +:+ "}").

Inductive token : Type :=
| TLBrace | TRBrace | TColon | TComma
| TStr (s : string)
| TInt (z : Z).

(** The scanner is an automaton over the characters of the document. *)
Inductive lex_state : Type :=
| LDefault
| LStr (acc : string)
| LMinus
| LZero
| LNum (neg : bool) (acc : N).

Definition json_space (c : ascii) : bool :=
  let n := nat_of_ascii c in
  ((n =? 32) || (n =? 9) || (n =? 10) || (n =? 13))%nat.

Definition signed (neg : bool) (n : N) : Z :=
  if neg then - Z.of_N n else Z.of_N n.

(** Reading [c] between tokens. *)
Definition lex_start (c : ascii) : option (list token * lex_state) :=
  if json_space c then Some ([], LDefault)
  else if Ascii.eqb c "{" then Some ([TLBrace], LDefault)
  else if Ascii.eqb c "}" then Some ([TRBrace], LDefault)
  else if Ascii.eqb c ":" then Some ([TColon], LDefault)
  else if Ascii.eqb c "," then Some ([TComma], LDefault)
  else if Ascii.eqb c quote then Some ([], LStr "")
  else if Ascii.eqb c "-" then Some ([], LMinus)
  else match digit_of c with
       | Some 0%N => Some ([], LZero)
       | Some d => Some ([], LNum false d)
       | None => None
       end.

Definition after_token (t : token) (c : ascii)
  : option (list token * lex_state) :=
  match lex_start c with
  | Some (ts, st) => Some (t :: ts, st)
  | None => None
  end.

(** The transition function.  A string ends at the next quote and holds
    no escape and no control character; an integer is an optional minus
    sign followed by 0 or by a digit 1-9 and any further digits. *)
Definition lex_char (st : lex_state) (c : ascii)
  : option (list token * lex_state) :=
  match st with
  | LDefault => lex_start c
  | LStr acc =>
      if Ascii.eqb c quote then Some ([TStr acc], LDefault)
      else if (Ascii.eqb c backslash || (nat_of_ascii c <? 32)%nat)%bool
           then None
      else Some ([], LStr (acc +:+ String c ""))
  | LMinus =>
      match digit_of c with
      | Some 0%N => Some ([], LZero)
      | Some d => Some ([], LNum true d)
      | None => None
      end
  | LZero =>
      match digit_of c with
      | Some _ => None
      | None => after_token (TInt 0) c
      end
  | LNum neg acc =>
      match digit_of c with
      | Some d => Some ([], LNum neg (acc * 10 + d)%N)
      | None => after_token (TInt (signed neg acc)) c
      end
  end.

Fixpoint lex (st : lex_state) (s : string) : option (list token) :=
  match s with
  | EmptyString =>
      match st with
      | LDefault => Some []
      | LStr _ | LMinus => None
      | LZero => Some [TInt 0]
      | LNum neg acc => Some [TInt (signed neg acc)]
      end
  | String c r =>
      match lex_char st c with
      | Some (ts, st') =>
          match lex st' r with
          | Some ts' => Some (ts ++ ts')
          | None => None
          end
      | None => None
      end
  end.

(** The members of an object, after the opening brace; a repeated key
    keeps its first position and its last value, as [dict(pairs)] does. *)
Fixpoint parse_members (ts : list token) (acc : jobject) : option jobject :=
  match ts with
  | TStr k :: TColon :: TInt v :: rest =>
      match rest with
      | [TRBrace] => Some (jobject_set k v acc)
      | TComma :: rest' => parse_members rest' (jobject_set k v acc)
      | _ => None
      end
  | _ => None
  end.

Definition parse_object (ts : list token) : option jobject :=
  match ts with
  | [TLBrace; TRBrace] => Some []
  | TLBrace :: ms => parse_members ms []
  | _ => None
  end.

Fixpoint skip_json_space (s : string) : string :=
  match s with
  | String c r => if json_space c then skip_json_space r else s
  | EmptyString => EmptyString
  end.

(** Can [c] begin a JSON value (for Python: also [NaN], [Infinity])? *)
Definition value_start (c : ascii) : bool :=
  match digit_of c with
  | Some _ => true
  | None =>
      existsb (Ascii.eqb c)
        ["{"; "["; quote; "-"; "t"; "f"; "n"; "N"; "I"]%char
  end.

(** [json.load(f)].  A document that holds no value at all is a
    [JSONDecodeError]; an object whose members are all integers is
    returned as a [dict] with [str] keys; every other text, a JSON
    document or not, is left out of the model. *)
Definition json_load (text : string) : result jobject :=
  match skip_json_space text with
  | EmptyString => Raise JSONDecodeError
  | String c _ =>
      if value_start c then
        match lex LDefault text with
        | Some ts =>
            match parse_object ts with
            | Some d => Ok d
            | None => OutOfModel
            end
        | None => OutOfModel
        end
      else Raise JSONDecodeError
  end.

(* ================================================================== *)
(** ** The file system and the console *)

(** An entry of a directory: a regular file with its text, or a
    directory.  The flag of a file tells whether the process is allowed
    to open it: on a file with [false] (mode 000) [open] raises
    [PermissionError], for reading as for writing.  Files that may be
    opened for the one and not for the other are not represented. *)
Inductive entry : Type :=
| File (readable : bool) (content : string)
| Directory.

(** A directory: its entries in listing order. *)
Definition directory : Type := list (string * entry).

Fixpoint dir_lookup (name : string) (d : directory) : option entry :=
  match d with
  | [] => None
  | (n, e) :: r => if String.eqb n name then Some e else dir_lookup name r
  end.

(** The names an entry of a directory can have: not empty, not [.] or
    [..], without a slash and without a NUL.  A path made of the
    directory and any other name does not denote an entry of this
    directory (it denotes the directory itself, something below one of
    its entries, or nothing a path can denote): what [open] does with it
    is not covered. *)
Definition is_entry_name (name : string) : bool :=
  (negb (String.eqb name "") && negb (String.eqb name ".")
   && negb (String.eqb name "..")
   && negb (has_char "/" name) && negb (has_char (chr 0) name))%bool.

(** [open(path, 'r')] followed by reading the text, for the path of the
    entry [name] of directory [d]. *)
Definition open_read (d : directory) (name : string) : result string :=
  if is_entry_name name then
    match dir_lookup name d with
    | None => Raise FileNotFoundError
    | Some Directory => Raise IsADirectoryError
    | Some (File false _) => Raise PermissionError
    | Some (File true text) => Ok text
    end
  else OutOfModel.

(** The listing after [text] has been written to the entry [name]: a
    file that may be opened keeps its place, a new file is listed
    last. *)
Fixpoint dir_store (name text : string) (d : directory) : result directory :=
  match d with
  | [] => Ok [(name, File true text)]
  | (n, e) :: r =>
      if String.eqb n name then
        match e with
        | File true _ => Ok ((n, File true text) :: r)
        | File false _ => Raise PermissionError
        | Directory => Raise IsADirectoryError
        end
      else
        r' ← dir_store name text r; Ok ((n, e) :: r')
  end.

(** [open(path, 'w')], writing [text] and closing, for the path of the
    entry [name] of directory [d]. *)
Definition dir_write (name text : string) (d : directory) : result directory :=
  if is_entry_name name then dir_store name text d else OutOfModel.

(** The same when the directory itself may be missing. *)
Definition write_file (o : option directory) (name text : string)
  : result (option directory) :=
  match o with
  | None => Raise FileNotFoundError
  | Some d => d' ← dir_write name text d; Ok (Some d')
  end.

(** [os.makedirs(dir, exist_ok=True)] *)
Definition makedirs (o : option directory) : option directory :=
  match o with
  | None => Some []
  | Some d => Some d
  end.

Definition listing (o : option directory) : directory :=
  match o with
  | None => []
  | Some d => d
  end.

Definition is_hidden (name : string) : bool :=
  match name with
  | String c _ => Ascii.eqb c "."
  | EmptyString => false
  end.

Definition has_suffix (suffix s : string) : bool :=
  let n := String.length s in
  let m := String.length suffix in
  ((m <=? n)%nat && String.eqb (substring (n - m) m s) suffix)%bool.

(** The names [glob] finds with a pattern that starts with a star: the
    names of entries that are not hidden. *)
Definition globbed (name : string) : bool :=
  (is_entry_name name && negb (is_hidden name))%bool.

(** [glob(os.path.join(dir, '*'))] for a path [dir] without pattern
    characters, whose entries are [d]: every name that is not hidden, in
    listing order.  (With a pattern character in [dir], [glob] lists the
    directories that [dir] matches as a pattern, not the directory of
    that name.) *)
Definition glob_star (d : directory) : list string :=
  map fst (List.filter (fun ne => globbed (fst ne)) d).

(** [glob(os.path.join(dir, '*.json'))], under the same condition. *)
Definition glob_json (d : directory) : list string :=
  map fst
    (List.filter
       (fun ne => (globbed (fst ne) && has_suffix ".json" (fst ne))%bool)
       d).

(** [os.path.isfile(path)] *)
Definition isfile (d : directory) (name : string) : bool :=
  match dir_lookup name d with
  | Some (File _ _) => true
  | _ => false
  end.

(** What [print] wrote.  [PrintExn s e] is a line made of [s] followed by
    [str(e)], the interpreter's text for the exception. *)
Inductive line : Type :=
| Print (s : string)
| PrintExn (s : string) (e : exn).

(** The configuration read from the environment, the two directories and
    the console. *)
Record world : Type := mkWorld {
  DATA_DIR : string;
  PROJECT_PATH : string;
  data : directory;
  outputs : option directory;
  console : list line
}.

Definition REDUCER_DIR (w : world) : string :=
  path_join (PROJECT_PATH w) "outputs".

Definition set_outputs (o : option directory) (w : world) : world :=
  mkWorld (DATA_DIR w) (PROJECT_PATH w) (data w) o (console w).

Definition emit (ls : list line) (w : world) : world :=
  mkWorld (DATA_DIR w) (PROJECT_PATH w) (data w) (outputs w) (console w ++ ls).

Definition print (s : string) (w : world) : world := emit [Print s] w.

(* ================================================================== *)
(** ** [ProcessPoolExecutor] *)

Inductive pool_event : Type :=
| Dispatch
| Complete (i : nat).

Section Pool.
Context {A B : Type}.

(** The task queue, the tasks in flight, one future per submitted task
    ([None] while unresolved) and what the workers printed. *)
Record pool : Type := mkPool {
  queue : list nat;
  running : list nat;
  futures : list (option (result B));
  printed : list line
}.

Variable fn : A -> list line * result B.
Variable items : list A.

(** [executor.map] submits one task per item, in order. *)
Definition submit_all : pool :=
  mkPool (seq 0 (length items)) [] (replicate (length items) None) [].

Definition without (i : nat) (l : list nat) : list nat :=
  List.filter (fun j => negb (j =? i)%nat) l.

(** Task [i] runs to its end: its future is resolved with the value or
    the exception of [fn], and the lines it printed reach the console
    together. *)
Definition finish (i : nat) (p : pool) : pool :=
  match items !! i with
  | Some a =>
      mkPool (without i (queue p)) (without i (running p))
             (<[i := Some (snd (fn a))]> (futures p))
             (printed p ++ fst (fn a))
  | None => p
  end.

(** One event of the schedule; an event that is not enabled is ignored.
    A task is dispatched only while fewer than [max_workers] are in
    flight, and only a task in flight can complete. *)
Definition pool_step (max_workers : nat) (p : pool) (ev : pool_event) : pool :=
  match ev with
  | Dispatch =>
      match queue p with
      | i :: q =>
          if (length (running p) <? max_workers)%nat
          then mkPool q (running p ++ [i]) (futures p) (printed p)
          else p
      | [] => p
      end
  | Complete i =>
      if existsb (Nat.eqb i) (running p) then finish i p else p
  end.

(** Leaving the [with] block waits for every task still in flight or
    queued. *)
Definition shutdown (p : pool) : pool :=
  fold_left (fun p i => finish i p) (running p ++ queue p) p.

(** Reading the futures in submission order; the first exception met is
    raised.  No future is unresolved after [shutdown]. *)
Fixpoint gather (fs : list (option (result B))) : result (list B) :=
  match fs with
  | [] => Ok []
  | Some r :: rest => b ← r; bs ← gather rest; Ok (b :: bs)
  | None :: _ => OutOfModel
  end.

(** [with ProcessPoolExecutor(max_workers) as executor:
       list(executor.map(fn, items))]
    under the schedule [sched] of the workers: the printed lines and the
    list of results. *)
Definition executor_map (max_workers : nat) (sched : list pool_event)
  : list line * result (list B) :=
  match max_workers with
  | O => ([], Raise ValueError)
  | S _ =>
      let p := shutdown (fold_left (pool_step max_workers) sched submit_all) in
      (printed p, gather (futures p))
  end.

(** The invariant of the pool: every future has its slot, and a task is either done, with the
    result of [fn] on its own item, or still in flight or queued. *)
Definition pool_inv (p : pool) : Prop :=
  length (futures p) = length items /\
  forall i a, items !! i = Some a ->
    futures p !! i = Some (Some (snd (fn a))) \/ In i (running p ++ queue p).

End Pool.

Arguments pool B : clear implicits.

(* ================================================================== *)
(** ** The program *)

(** The loop of [mapper] over the lines of the file. *)
Fixpoint count_lines (lines : list string) (counts : dict) : dict :=
  match lines with
  | [] => counts
  | l :: rest =>
      match py_int (strip l) with
      | Some num => count_lines rest (dict_add num 1 counts)
      | None => count_lines rest counts
      end
  end.

(** [mapper(file_path)] for a path [file_path] of the entry [name] of
    the data directory: the lines it prints and its result. *)
Definition mapper_path (file_path : string) (w : world) (name : string)
  : list line * result dict :=
  let started := Print ("Mapper started for " +:+ file_path) in
  match open_read (data w) name with
  | Ok text =>
      ([started; Print ("Mapper finished for " +:+ file_path)],
       Ok (count_lines (readlines text) []))
  | Raise FileNotFoundError =>
      ([started; Print ("Error: File not found at " +:+ file_path)], Ok [])
  | Raise e => ([started], Raise e)
  | OutOfModel => ([started], OutOfModel)
  end.

(** [mapper(file_path)] for [file_path = os.path.join(DATA_DIR, name)]. *)
Definition mapper (w : world) (name : string) : list line * result dict :=
  mapper_path (path_join (DATA_DIR w) name) w name.

(** [mapper(file_path)] for the path that [glob] returned for [name], as
    [run_mappers] calls it. *)
Definition glob_mapper (w : world) (name : string) : list line * result dict :=
  mapper_path (glob_path (DATA_DIR w) name) w name.

Definition mapper_output (i : nat) : string :=
  "mapper_output_" +:+ py_str_nat i +:+ ".json".

(** The loop of [run_mappers] over [enumerate(mapper_results)], from
    index [i] on. *)
Fixpoint save_results (i : nat) (mapper_results : list dict) (w : world)
  : result world :=
  match mapper_results with
  | [] => Ok w
  | r :: rest =>
      let output_file_path := path_join (REDUCER_DIR w) (mapper_output i) in
      o ← write_file (outputs w) (mapper_output i) (json_dump r);
      save_results (S i) rest
        (print ("Saved mapper output to " +:+ output_file_path) (set_outputs o w))
  end.

Definition run_mappers (sched : list pool_event) (w : world) : result world :=
  let w := set_outputs (makedirs (outputs w)) w in
  let all_paths := glob_star (data w) in
  let data_files := List.filter (isfile (data w)) all_paths in
  match data_files with
  | [] => Ok (print "Error: No data files found in the specified directory." w)
  | _ :: _ =>
      let run := executor_map (glob_mapper w) data_files 4 sched in
      let w := emit (fst run) w in
      mapper_results ← snd run;
      w ← save_results 0 mapper_results w;
      Ok (print "All mappers have completed." w)
  end.

(** The inner loop of [reducer] over [data.items()]. *)
Fixpoint merge_items (items : jobject) (final_counts : dict) : result dict :=
  match items with
  | [] => Ok final_counts
  | (num, count) :: rest =>
      match py_int num with
      | Some k => merge_items rest (dict_add k count final_counts)
      | None => Raise ValueError
      end
  end.

(** The outer loop of [reducer] over [mapper_files]. *)
Fixpoint merge_files (mapper_files : list string) (final_counts : dict)
  (w : world) : result (dict * world) :=
  match mapper_files with
  | [] => Ok (final_counts, w)
  | name :: rest =>
      let file_path := path_join (REDUCER_DIR w) name in
      let attempt := text ← open_read (listing (outputs w)) name;
                     data ← json_load text;
                     merge_items data final_counts in
      match attempt with
      | Ok final_counts' => merge_files rest final_counts' w
      | Raise JSONDecodeError =>
          merge_files rest final_counts
            (emit [PrintExn ("Error processing " +:+ file_path +:+ ": ")
                            JSONDecodeError] w)
      | Raise FileNotFoundError =>
          merge_files rest final_counts
            (emit [PrintExn ("Error processing " +:+ file_path +:+ ": ")
                            FileNotFoundError] w)
      | Raise e => Raise e
      | OutOfModel => OutOfModel
      end
  end.

Definition output_line (item : Z * Z) : string :=
  "Number: " +:+ py_str (fst item) +:+ ", Frequency: " +:+ py_str (snd item).

Definition report_header : string :=
  "Top 6 elements with the highest frequencies:".

(** What [reducer] writes to [final_output.txt]. *)
Definition report_text (top : list (Z * Z)) : string :=
  report_header +:+ String LF ""
  +:+ String.concat "" (map (fun item => output_line item +:+ String LF "") top).

Definition reducer (w : world) : result world :=
  let mapper_files := glob_json (listing (outputs w)) in
  match mapper_files with
  | [] =>
      Ok (print ("Error: No mapper output files found in the reducer directory."
                 +:+ " Run 'mapper' first.") w)
  | _ :: _ =>
      let w := print "Reducer started..." w in
      '(final_counts, w) ← merge_files mapper_files [] w;
      let sorted_counts := sorted_by_count_desc final_counts in
      let w := print (String LF report_header) w in
      let output_file_path := path_join (REDUCER_DIR w) "final_output.txt" in
      let top := firstn 6 sorted_counts in
      o ← write_file (outputs w) "final_output.txt" (report_text top);
      let w := emit (map (fun item => Print (output_line item)) top)
                    (set_outputs o w) in
      let w := print (String LF ("Final output saved to " +:+ output_file_path)) w in
      Ok (print "Reducer finished." w)
  end.

Definition main (sched : list pool_event) (w : world) : result world :=
  w ← run_mappers sched w; reducer w.

(* ================================================================== *)
(** ** [load_dotenv] and the configuration *)

(** [line.split('=', 1)] for a line that holds an equals sign; [None]
    when it holds none. *)
Fixpoint split_eq (s : string) : option (string * string) :=
  match s with
  | EmptyString => None
  | String c r =>
      if Ascii.eqb c "=" then Some (EmptyString, r)
      else match split_eq r with
           | Some (key, val) => Some (String c key, val)
           | None => None
           end
  end.

(** [line.startswith('#')] *)
Definition is_comment (s : string) : bool :=
  match s with
  | String c _ => Ascii.eqb c "#"
  | EmptyString => false
  end.

(** Does [s] hold a NUL character?  [os.environ] refuses such a name or
    value with a [ValueError]. *)
Fixpoint has_nul (s : string) : bool :=
  match s with
  | EmptyString => false
  | String c r => Ascii.eqb c (chr 0) || has_nul r
  end.

Definition apostrophe : ascii := chr 39.

(** The loop of [load_dotenv] over the lines of the file: the
    environment it leaves, and the exception that ended it, if any. *)
Fixpoint dotenv_lines (lines : list string) (environ : gmap string string)
  : gmap string string * option exn :=
  match lines with
  | [] => (environ, None)
  | raw :: rest =>
      let line := strip raw in
      if (String.eqb line "" || is_comment line)%bool
      then dotenv_lines rest environ
      else
        match split_eq line with
        | None => dotenv_lines rest environ
        | Some (key, val) =>
            let key := strip key in
            let val := strip_char apostrophe (strip_char quote (strip val)) in
            if (negb (String.eqb key "") && bool_decide (environ !! key = None))%bool
            then
              if (has_nul key || has_nul val)%bool
              then (environ, Some ValueError)
              else dotenv_lines rest (<[key := val]> environ)
            else dotenv_lines rest environ
        end
  end.

(** [load_dotenv(dotenv_path)], where [file] is what stands at
    [dotenv_path]: the environment afterwards and the lines printed.  Any
    exception is caught and reported by a warning. *)
Definition load_dotenv (dotenv_path : string) (file : option entry)
    (environ : gmap string string) : gmap string string * list line :=
  match file with
  | None => (environ, [])
  | Some Directory =>
      (environ,
       [PrintExn ("Warning: failed to read " +:+ dotenv_path +:+ ": ")
                 IsADirectoryError])
  | Some (File false _) =>
      (environ,
       [PrintExn ("Warning: failed to read " +:+ dotenv_path +:+ ": ")
                 PermissionError])
  | Some (File true text) =>
      match dotenv_lines (readlines text) environ with
      | (environ', None) => (environ', [])
      | (environ', Some e) =>
          (environ',
           [PrintExn ("Warning: failed to read " +:+ dotenv_path +:+ ": ") e])
      end
  end.

(** [os.environ.get(name, default)] *)
Definition environ_get (environ : gmap string string) (name default : string)
  : string :=
  match environ !! name with
  | Some v => v
  | None => default
  end.

(** Loading the module: [load_dotenv('.env')], then the configuration is
    read from the environment.  [dotenv] is what stands at [.env]; [data]
    and [outputs] are the directories that [DATA_DIR] and [REDUCER_DIR]
    then name. *)
Definition startup (dotenv : option entry) (environ : gmap string string)
    (data : directory) (outputs : option directory) : world :=
  let loaded := load_dotenv ".env" dotenv environ in
  mkWorld (environ_get (fst loaded) "DATA_PATH" "data_path")
          (environ_get (fst loaded) "PROJECT_PATH" "project_path")
          data outputs (snd loaded).

(* ================================================================== *)
(** * Vocabulary of the statements *)

(** ** Numerals and documents *)

(** Every character of [s] satisfies [p]. *)
Fixpoint all_chars (p : ascii -> bool) (s : string) : bool :=
  match s with
  | EmptyString => true
  | String c r => p c && all_chars p r
  end.

(** The characters of [str(z)]: digits and the minus sign. *)
Definition numeral_char (c : ascii) : bool :=
  match digit_of c with
  | Some _ => true
  | None => Ascii.eqb c "-"
  end.

Definition is_digit (c : ascii) : bool :=
  match digit_of c with
  | Some _ => true
  | None => false
  end.

(** The value of the digits [d] read after the value [acc]. *)
Fixpoint uint_value (acc : N) (d : Decimal.uint) : N :=
  match d with
  | Decimal.Nil => acc
  | Decimal.D0 l => uint_value (acc * 10 + 0) l
  | Decimal.D1 l => uint_value (acc * 10 + 1) l
  | Decimal.D2 l => uint_value (acc * 10 + 2) l
  | Decimal.D3 l => uint_value (acc * 10 + 3) l
  | Decimal.D4 l => uint_value (acc * 10 + 4) l
  | Decimal.D5 l => uint_value (acc * 10 + 5) l
  | Decimal.D6 l => uint_value (acc * 10 + 6) l
  | Decimal.D7 l => uint_value (acc * 10 + 7) l
  | Decimal.D8 l => uint_value (acc * 10 + 8) l
  | Decimal.D9 l => uint_value (acc * 10 + 9) l
  end%N.

(** What [json.load] returns for the document of [d]: the keys as [str]. *)
Definition stringify (d : dict) : jobject :=
  map (fun kv => (py_str (fst kv), snd kv)) d.

Definition member_tokens (kv : Z * Z) : list token :=
  [TStr (py_str (fst kv)); TColon; TInt (snd kv)].

(** The document after its first member. *)
Fixpoint tail_text (d : dict) : string :=
  match d with
  | [] => "}"
  | kv :: r => ", " +:+ dump_member kv +:+ tail_text r
  end.

Fixpoint tail_tokens (d : dict) : list token :=
  match d with
  | [] => [TRBrace]
  | kv :: r => TComma :: member_tokens kv ++ tail_tokens r
  end.

(** ** Merging *)

(** [add_all items d]: [d[k] += c] for every [(k, c)] of [items] in turn. *)
Definition add_all (items : list (Z * Z)) (d : dict) : dict :=
  fold_left (fun a kv => dict_add (fst kv) (snd kv) a) items d.

(** The sum of the counts listed for [k] in [items]. *)
Fixpoint total (k : Z) (items : list (Z * Z)) : Z :=
  match items with
  | [] => 0
  | (k', v) :: r => (if k' =? k then v else 0) + total k r
  end.

(** [int(num)] on every key of a decoded record. *)
Fixpoint decode_items (data : jobject) : option (list (Z * Z)) :=
  match data with
  | [] => Some []
  | (num, count) :: rest =>
      match py_int num, decode_items rest with
      | Some k, Some items => Some ((k, count) :: items)
      | _, _ => None
      end
  end.

(** What one record file adds to the merge: its items with [int] keys,
    [None] when the file is skipped with a warning. *)
Definition contribution (d : directory) (name : string)
  : result (option (list (Z * Z))) :=
  let attempt := text ← open_read d name;
                 data ← json_load text;
                 match decode_items data with
                 | Some items => Ok items
                 | None => Raise ValueError
                 end in
  match attempt with
  | Ok items => Ok (Some items)
  | Raise JSONDecodeError | Raise FileNotFoundError => Ok None
  | Raise e => Raise e
  | OutOfModel => OutOfModel
  end.

Fixpoint contributions (d : directory) (names : list string)
  : result (list (option (list (Z * Z)))) :=
  match names with
  | [] => Ok []
  | name :: rest =>
      c ← contribution d name; cs ← contributions d rest; Ok (c :: cs)
  end.

(** All items that are merged, in merge order. *)
Definition merged_items (cs : list (option (list (Z * Z)))) : list (Z * Z) :=
  concat (map (fun c => match c with Some items => items | None => [] end) cs).

(** ** Ranking and counting *)

(** Counts never increase along the list. *)
Definition descending (l : list (Z * Z)) : Prop :=
  StronglySorted (fun a b => snd b <= snd a) l.

(** The entries whose count is [c], in the order of [l]. *)
Definition with_count (c : Z) (l : list (Z * Z)) : list (Z * Z) :=
  List.filter (fun e => snd e =? c) l.

(** The pairs [(n, 1)] of the lines that parse, in file order. *)
Definition parsed_lines (lines : list string) : list (Z * Z) :=
  flat_map (fun l => match py_int (strip l) with
                     | Some n => [(n, 1)]
                     | None => []
                     end) lines.

(** How many of [lines] parse as [n] once stripped. *)
Definition occurrences (n : Z) (lines : list string) : nat :=
  length (List.filter (fun l => match py_int (strip l) with
                                | Some m => m =? n
                                | None => false
                                end) lines).

(** ** The stages *)

(** The ranked report of a merged mapping. *)
Definition top6 (merged : dict) : list (Z * Z) :=
  firstn 6 (sorted_by_count_desc merged).

Definition no_records_message : string :=
  "Error: No mapper output files found in the reducer directory."
  +:+ " Run 'mapper' first.".

(** [open(path, 'w')] succeeds on the entry [name] of [d]: nothing has
    that name, or a file that the process may open. *)
Definition writable (d : directory) (name : string) : bool :=
  match dir_lookup name d with
  | None | Some (File true _) => true
  | Some (File false _) | Some Directory => false
  end.

(** Read back from a world what the report file holds. *)
Definition report_of (r : result world) : option entry :=
  match r with
  | Ok w => dir_lookup "final_output.txt" (listing (outputs w))
  | _ => None
  end.

(** The files the mapper stage works on. *)
Definition data_files (w : world) : list string :=
  List.filter (isfile (data w)) (glob_star (data w)).

(** The Counter's mapping for the file [name] of the data directory. *)
Definition frequency (w : world) (name : string) : dict :=
  match open_read (data w) name with
  | Ok text => count_lines (readlines text) []
  | _ => []
  end.

Definition no_input_message : string :=
  "Error: No data files found in the specified directory.".

(** Two mappings with the same entries, whatever their order. *)
Definition same_entries (d d' : dict) : Prop :=
  forall k v, In (k, v) d <-> In (k, v) d'.

(** The sum of the counts that the mappings [ms] give to [k]. *)
Definition sum_counts (k : Z) (ms : list dict) : Z :=
  fold_right Z.add 0 (map (count_of k) ms).

(** Two runs of the merge loop agree: both return, with the same
    entries, or neither returns. *)
Definition merge_agree (r r' : result (dict * world)) : Prop :=
  match r, r' with
  | Ok (merged, _), Ok (merged', _) => same_entries merged merged'
  | Ok _, _ | _, Ok _ => False
  | _, _ => True
  end.

(** ** Example worlds *)

(** The skip-tolerance file of the specification: 3, abc, a blank line, 5. *)
Definition skip_text : string :=
  "3" +:+ String LF ("abc" +:+ String LF (String LF ("5" +:+ String LF ""))).

(** A run with two data files, a hidden file and a sub-directory. *)
Definition two_files_world : world :=
  mkWorld "data_path" "project_path"
    [("a.txt", File true skip_text);
     (".hidden", File true "1");
     ("sub", Directory);
     ("b.txt", File true ("5" +:+ String CR "7"))]
    None [].

(** No input file, and a record left in the reducer directory by an
    earlier run. *)
Definition stale_world : world :=
  mkWorld "data_path" "project_path" []
    (Some [("mapper_output_0.json", File true (json_dump [(1, 1)]))]) [].

(** No input file and no reducer directory yet. *)
Definition fresh_world : world :=
  mkWorld "data_path" "project_path" [] None [].

(** One record file, which is empty and so does not decode. *)
Definition corrupt_world : world :=
  mkWorld "data_path" "project_path" []
    (Some [("mapper_output_0.json", File true "")]) [].

(** The same two records, listed in the two possible orders. *)
Definition ab_world : world :=
  mkWorld "data_path" "project_path" []
    (Some [("a.json", File true (json_dump [(1, 10)]));
           ("b.json", File true (json_dump [(2, 10)]))]) [].

Definition ba_world : world :=
  mkWorld "data_path" "project_path" []
    (Some [("b.json", File true (json_dump [(2, 10)]));
           ("a.json", File true (json_dump [(1, 10)]))]) [].

(** A data file that exists but may not be read, next to a readable one. *)
Definition locked_world : world :=
  mkWorld "data_path" "project_path"
    [("locked.txt", File false "1"); ("ok.txt", File true "2")]
    None [].

(** A readable data file, and a directory where its record is to be
    written. *)
Definition blocked_world : world :=
  mkWorld "data_path" "project_path"
    [("ok.txt", File true "2")]
    (Some [("mapper_output_0.json", Directory)]) [].


(** Two records of the merge example of the specification. *)
Definition merge_world : world :=
  mkWorld "data_path" "project_path" []
    (Some [("mapper_output_0.json", File true (json_dump [(1, 2); (2, 1)]));
           ("mapper_output_1.json", File true (json_dump [(1, 1); (3, 4)]))])
    [].

(** The keys of a concrete mapping are pairwise different. *)
Ltac unique_keys :=
  unfold keys; simpl;
  repeat (apply NoDup_cons_2; [rewrite list_elem_of_In; simpl; intuition lia|]);
  apply NoDup_nil_2.

(** ** Vocabulary of the further properties *)

(** The assignment a line of the file makes: its name and value. *)
Definition dotenv_binding (raw : string) : option (string * string) :=
  let line := strip raw in
  if (String.eqb line "" || is_comment line)%bool then None
  else match split_eq line with
       | None => None
       | Some (key, val) =>
           if String.eqb (strip key) "" then None
           else Some (strip key,
                      strip_char apostrophe (strip_char quote (strip val)))
       end.

(** The value of the first assignment to [name] among [lines]. *)
Fixpoint first_binding (name : string) (lines : list string) : option string :=
  match lines with
  | [] => None
  | raw :: rest =>
      match dotenv_binding raw with
      | Some (key, val) =>
          if String.eqb key name then Some val else first_binding name rest
      | None => first_binding name rest
      end
  end.

(** The text with every LF turned into CR LF. *)
Fixpoint to_crlf (s : string) : string :=
  match s with
  | EmptyString => EmptyString
  | String c r =>
      if Ascii.eqb c LF then String CR (String LF (to_crlf r))
      else String c (to_crlf r)
  end.

(** Does the text hold a CR? *)
Fixpoint has_cr (s : string) : bool :=
  match s with
  | EmptyString => false
  | String c r => Ascii.eqb c CR || has_cr r
  end.

(** The sum of the counts of a mapping. *)
Definition sum_values (d : dict) : Z := fold_right Z.add 0 (map snd d).

(** The keys [ks] without repetition, each at its first occurrence, and
    without those already [seen]. *)
Fixpoint first_seen (seen : list Z) (ks : list Z) : list Z :=
  match ks with
  | [] => []
  | k :: r =>
      if existsb (Z.eqb k) seen then first_seen seen r
      else k :: first_seen (k :: seen) r
  end.

(** The entries that [run_mappers] adds to a directory where no record
    stands yet, for the results [rs], from index [i] on. *)
Fixpoint stored_records (i : nat) (rs : list dict) : directory :=
  match rs with
  | [] => []
  | r :: rest =>
      (mapper_output i, File true (json_dump r)) :: stored_records (S i) rest
  end.

(** The lines of the data file [name]. *)
Definition lines_of (w : world) (name : string) : list string :=
  match open_read (data w) name with
  | Ok text => readlines text
  | _ => []
  end.

(** How many lines of all the data files parse as [n]. *)
Definition total_occurrences (n : Z) (w : world) : nat :=
  fold_right Nat.add O
    (map (fun name => occurrences n (lines_of w name)) (data_files w)).


Section PoolOutput.
Context {A B : Type}.
Variable fn : A -> list line * result B.
Variable items : list A.

(** What the tasks of the indices [l] print, index by index. *)
Definition task_lines (l : list nat) : list line :=
  concat (map (fun i => match items !! i with
                        | Some a => fst (fn a)
                        | None => []
                        end) l).

End PoolOutput.

(** ** Further example worlds *)

(** A [.env] file: a comment, a blank line, two assignments to one name,
    a line without equals sign and a quoted value. *)
Definition sample_dotenv : string :=
  "# paths" +:+ String LF (String LF
  ("DATA_PATH = /data/in " +:+ String LF
  ("export" +:+ String LF
  ("DATA_PATH=/other" +:+ String LF
  ("PROJECT_PATH=" +:+ String quote ("/home/me/proj" +:+ String quote
  (String LF ""))))))).

(** A [.env] file with a quoted value, inner and outer spaces, and a
    second assignment to the same name. *)
Definition quoted_dotenv : string :=
  "# paths" +:+ String LF
  ("  DATA_PATH = " +:+ String quote ("/data/my files " +:+ String quote
  ("  " +:+ String LF
  ("DATA_PATH=/other" +:+ String LF "")))).

(** An environment in which [DATA_PATH] and [PROJECT_PATH] are exported. *)
Definition exported_environ : gmap string string :=
  {[ "DATA_PATH"%string := "/exported/data"%string;
     "PROJECT_PATH"%string := "/exported/proj"%string ]}.

(** One data file with LF line ends, and the same with CR LF line ends. *)
Definition lf_world : world :=
  mkWorld "data_path" "project_path"
    [("n.txt", File true ("5" +:+ String LF ("7" +:+ String LF ("5" +:+ String LF ""))))]
    None [].

Definition crlf_world : world :=
  mkWorld "data_path" "project_path"
    [("n.txt",
      File true (to_crlf ("5" +:+ String LF ("7" +:+ String LF ("5" +:+ String LF "")))))]
    None [].

(** Two data files, and a reducer directory that holds a record of index
    5 left by an earlier run and a file of notes. *)
Definition rerun_world : world :=
  mkWorld "data_path" "project_path"
    [("a.txt", File true skip_text); ("b.txt", File true "5")]
    (Some [("mapper_output_5.json", File true (json_dump [(9, 9)]));
           ("notes.txt", File true "keep")])
    [].


(** A record whose only key is the string [a]. *)
Definition letter_key_world : world :=
  mkWorld "data_path" "project_path" []
    (Some [("mapper_output_0.json",
            File true ("{" +:+ String quote ("a" +:+ String quote ": 1}")))])
    [].

(** A directory whose name ends in [.json]. *)
Definition json_directory_world : world :=
  mkWorld "data_path" "project_path" []
    (Some [("old.json", Directory)]) [].

(* ================================================================== *)
(** * Properties *)

(** ** Strings *)

Lemma app_cons (c : ascii) (s t : string) :
  String c s +:+ t = String c (s +:+ t).
Proof. reflexivity. Qed.

Lemma app_empty_l (s : string) : "" +:+ s = s.
Proof. reflexivity. Qed.

Lemma app_empty_r (s : string) : s +:+ "" = s.
Proof. induction s as [|c s IH]; [reflexivity|]. rewrite app_cons, IH. reflexivity. Qed.

Lemma app_assoc_s (s t u : string) : (s +:+ t) +:+ u = s +:+ (t +:+ u).
Proof.
  induction s as [|c s IH]; [reflexivity|].
  rewrite !app_cons, IH. reflexivity.
Qed.

Lemma length_app_s (s t : string) :
  String.length (s +:+ t) = (String.length s + String.length t)%nat.
Proof.
  induction s as [|c s IH]; [reflexivity|].
  rewrite app_cons. simpl. rewrite IH. reflexivity.
Qed.

Lemma all_chars_impl (p q : ascii -> bool) (s : string) :
  (forall c, p c = true -> q c = true) ->
  all_chars p s = true -> all_chars q s = true.
Proof.
  intros Hpq. induction s as [|c s IH]; simpl; [easy|].
  intros [Hc Hs]%andb_prop. rewrite (Hpq _ Hc), (IH Hs). reflexivity.
Qed.

Lemma lstrip_no_space (c : ascii) (s : string) :
  is_space c = false -> lstrip (String c s) = String c s.
Proof. intros H. simpl. rewrite H. reflexivity. Qed.

Lemma rstrip_no_space (s : string) :
  all_chars (fun c => negb (is_space c)) s = true -> rstrip s = s.
Proof.
  induction s as [|c s IH]; simpl; [easy|].
  intros [Hc Hs]%andb_prop. rewrite (IH Hs).
  apply negb_true_iff in Hc. rewrite Hc. destruct s; reflexivity.
Qed.

Lemma strip_no_space (s : string) :
  all_chars (fun c => negb (is_space c)) s = true -> strip s = s.
Proof.
  intros H. unfold strip.
  destruct s as [|c s]; [reflexivity|].
  pose proof H as H'. simpl in H'. apply andb_prop in H' as [Hc _].
  apply negb_true_iff in Hc. rewrite (lstrip_no_space _ _ Hc).
  apply rstrip_no_space, H.
Qed.

(** ** Decimal numerals *)

Lemma uint_value_pos (d : Decimal.uint) (a : positive) :
  uint_value (Npos a) d = Npos (Pos.of_uint_acc d a).
Proof.
  revert a. induction d; intros a; simpl; [reflexivity|..];
    rewrite <- IHd; f_equal; lia.
Qed.

Lemma uint_value_0 (d : Decimal.uint) : uint_value 0 d = Pos.of_uint d.
Proof.
  induction d; simpl; [reflexivity|assumption|..]; apply uint_value_pos.
Qed.

Lemma digits_all_digit (d : Decimal.uint) :
  all_chars is_digit (NilEmpty.string_of_uint d) = true.
Proof. induction d; simpl; auto. Qed.

Lemma int_digits_uint (d : Decimal.uint) (acc : N) :
  int_digits acc (NilEmpty.string_of_uint d) = Some (uint_value acc d).
Proof. revert acc. induction d; intros acc; simpl; auto. Qed.

Lemma int_unsigned_uint (d : Decimal.uint) :
  d <> Decimal.Nil ->
  int_unsigned (NilEmpty.string_of_uint d) = Some (Pos.of_uint d).
Proof.
  intros Hd. rewrite <- uint_value_0.
  destruct d; [congruence|..]; simpl; apply int_digits_uint.
Qed.

Lemma to_uint_head (p : positive) :
  exists c l,
    NilEmpty.string_of_uint (Pos.to_uint p) = String c (NilEmpty.string_of_uint l) /\
    Pos.to_uint p <> Decimal.Nil /\
    is_digit c = true /\ digit_of c <> Some 0%N /\
    (forall acc, digit_of c = Some acc -> uint_value acc l = Npos p).
Proof.
  assert (Hn : Decimal.unorm (Pos.to_uint p) = Pos.to_uint p).
  { rewrite <- (DecimalPos.Unsigned.to_of (Pos.to_uint p)).
    rewrite DecimalPos.Unsigned.of_to. reflexivity. }
  assert (Hv : uint_value 0 (Pos.to_uint p) = Npos p).
  { rewrite uint_value_0. apply DecimalPos.Unsigned.of_to. }
  assert (Hz : Decimal.nzhead (Pos.to_uint p) <> Decimal.Nil).
  { intros E. apply DecimalFacts.unorm_0 in E.
    apply (DecimalPos.Unsigned.to_uint_nonzero p). congruence. }
  rewrite (DecimalFacts.unorm_nzhead _ Hz) in Hn.
  pose proof (DecimalFacts.nzhead_nonzero (Pos.to_uint p)) as Hh.
  rewrite Hn in Hh.
  destruct (Pos.to_uint p) as [|l|l|l|l|l|l|l|l|l|l] eqn:E;
    [ exfalso; apply (DecimalPos.Unsigned.to_uint_nonnil p); assumption
    | exfalso; apply (Hh l); reflexivity
    | .. ];
    eexists _, l; (split; [reflexivity|]); (split; [discriminate|]);
    (split; [reflexivity|]); (split; [discriminate|]);
    intros acc [= <-]; exact Hv.
Qed.

Lemma py_str_numeral (z : Z) : all_chars numeral_char (py_str z) = true.
Proof.
  assert (H : forall d, all_chars numeral_char (NilEmpty.string_of_uint d) = true).
  { intros d. apply (all_chars_impl is_digit); [|apply digits_all_digit].
    intros c. unfold is_digit, numeral_char. destruct (digit_of c); easy. }
  destruct z as [|p|p]; [reflexivity|..]; unfold py_str; simpl;
    unfold NilZero.string_of_uint;
    destruct (Pos.to_uint p) eqn:Ep;
    try (exfalso; apply (DecimalPos.Unsigned.to_uint_nonnil p); assumption);
    try apply (H (Decimal.D0 u)); try apply (H (Decimal.D1 u)); apply H.
Qed.

Lemma py_str_pos (p : positive) :
  py_str (Zpos p) = NilEmpty.string_of_uint (Pos.to_uint p).
Proof.
  unfold py_str. simpl. unfold NilZero.string_of_uint.
  destruct (Pos.to_uint p) eqn:E; try reflexivity.
  exfalso. apply (DecimalPos.Unsigned.to_uint_nonnil p). assumption.
Qed.

Lemma py_str_neg (p : positive) :
  py_str (Zneg p) = String "-" (NilEmpty.string_of_uint (Pos.to_uint p)).
Proof.
  change (py_str (Zneg p)) with (String "-" (py_str (Zpos p))).
  rewrite py_str_pos. reflexivity.
Qed.

Lemma numeral_char_no_space (c : ascii) :
  numeral_char c = true -> negb (is_space c) = true.
Proof.
  destruct c as [[] [] [] [] [] [] [] []]; vm_compute; congruence.
Qed.

Lemma strip_py_str (z : Z) : strip (py_str z) = py_str z.
Proof.
  apply strip_no_space.
  apply (all_chars_impl numeral_char); [apply numeral_char_no_space|].
  apply py_str_numeral.
Qed.

(** [int(str(z)) = z] *)
Lemma py_int_py_str (z : Z) : py_int (py_str z) = Some z.
Proof.
  unfold py_int. rewrite strip_py_str.
  destruct z as [|p|p]; [reflexivity|..].
  - rewrite py_str_pos.
    destruct (to_uint_head p) as (c & l & E & Hn & Hc & _ & _).
    pose proof (int_unsigned_uint _ Hn) as Hu.
    rewrite DecimalPos.Unsigned.of_to in Hu.
    rewrite E in Hu |- *.
    assert (Ascii.eqb c "-" = false /\ Ascii.eqb c "+" = false) as [-> ->].
    { clear -Hc. destruct c as [[] [] [] [] [] [] [] []]; vm_compute in Hc |- *;
        split; congruence. }
    rewrite Hu. reflexivity.
  - rewrite py_str_neg. simpl.
    rewrite int_unsigned_uint by apply DecimalPos.Unsigned.to_uint_nonnil.
    rewrite DecimalPos.Unsigned.of_to. reflexivity.
Qed.

Lemma py_str_inj (a b : Z) : py_str a = py_str b -> a = b.
Proof.
  intros H. apply (f_equal py_int) in H.
  rewrite !py_int_py_str in H. congruence.
Qed.

(** ** The scanner on what [json.dump] writes *)

Lemma lex_cons_some (st st' : lex_state) (c : ascii) (r : string)
    (ts : list token) :
  lex_char st c = Some (ts, st') ->
  lex st (String c r) = (ts ++.) <$> lex st' r.
Proof. intros H. simpl. rewrite H. destruct (lex st' r); reflexivity. Qed.

Lemma fmap_app_nil (o : option (list token)) : ([] ++.) <$> o = o.
Proof. destruct o; reflexivity. Qed.

(** Inside a string every numeral character is kept. *)
Lemma lex_in_string (s : string) (acc rest : string) :
  all_chars numeral_char s = true ->
  lex (LStr acc) (s +:+ String quote rest)
  = (TStr (acc +:+ s) ::.) <$> lex LDefault rest.
Proof.
  revert acc. induction s as [|c s IH]; intros acc Hs.
  - rewrite app_empty_l, app_empty_r.
    apply (lex_cons_some _ _ _ _ [TStr acc]). reflexivity.
  - simpl in Hs. apply andb_prop in Hs as [Hc Hs].
    rewrite app_cons.
    rewrite (lex_cons_some _ (LStr (acc +:+ String c "")) _ _ []).
    + rewrite (IH _ Hs). rewrite app_assoc_s. simpl.
      destruct (lex LDefault rest); reflexivity.
    + clear -Hc. destruct c as [[] [] [] [] [] [] [] []];
        vm_compute in Hc |- *; congruence.
Qed.

(** Further digits are accumulated. *)
Lemma lex_digits (d : Decimal.uint) (neg : bool) (acc : N) (rest : string) :
  lex (LNum neg acc) (NilEmpty.string_of_uint d +:+ rest)
  = lex (LNum neg (uint_value acc d)) rest.
Proof.
  revert acc.
  induction d; intros acc; cbn [NilEmpty.string_of_uint uint_value];
    [reflexivity|..];
    rewrite app_cons;
    (erewrite lex_cons_some by reflexivity); rewrite IHd;
    apply fmap_app_nil.
Qed.

Lemma lex_num_end (neg : bool) (acc : N) (c : ascii) (rest : string) :
  digit_of c = None ->
  lex (LNum neg acc) (String c rest)
  = match after_token (TInt (signed neg acc)) c with
    | Some (ts, st) => (ts ++.) <$> lex st rest
    | None => None
    end.
Proof.
  intros Hc. simpl. rewrite Hc.
  destruct (after_token _ c) as [[ts st]|]; [|reflexivity].
  destruct (lex st rest); reflexivity.
Qed.

(** An integer [str(z)] in front of a character that is no digit is read
    as the token [TInt z]. *)
Lemma lex_int (z : Z) (c : ascii) (rest : string) :
  digit_of c = None ->
  lex LDefault (py_str z +:+ String c rest)
  = match after_token (TInt z) c with
    | Some (ts, st) => (ts ++.) <$> lex st rest
    | None => None
    end.
Proof.
  intros Hc. destruct z as [|p|p].
  - change (py_str 0) with "0"%string. rewrite app_cons, app_empty_l.
    rewrite (lex_cons_some _ LZero _ _ []) by reflexivity.
    simpl. rewrite Hc.
    destruct (after_token _ c) as [[ts st]|]; [|reflexivity].
    destruct (lex st rest); reflexivity.
  - rewrite py_str_pos.
    destruct (to_uint_head p) as (c0 & l & E & _ & Hd & Hnz & Hv).
    rewrite E, app_cons. unfold is_digit in Hd.
    destruct (digit_of c0) as [n|] eqn:En; [|discriminate].
    rewrite (lex_cons_some _ (LNum false n) _ _ []).
    + rewrite lex_digits, (Hv n eq_refl), (lex_num_end _ _ _ _ Hc).
      simpl. destruct (after_token _ c) as [[ts st]|]; [|reflexivity].
      destruct (lex st rest); reflexivity.
    + clear -En Hnz. destruct c0 as [[] [] [] [] [] [] [] []];
        vm_compute in En, Hnz |- *; try congruence; inversion En; reflexivity.
  - rewrite py_str_neg, app_cons.
    rewrite (lex_cons_some _ LMinus _ _ []) by reflexivity.
    destruct (to_uint_head p) as (c0 & l & E & _ & Hd & Hnz & Hv).
    rewrite E, app_cons. unfold is_digit in Hd.
    destruct (digit_of c0) as [n|] eqn:En; [|discriminate].
    rewrite (lex_cons_some _ (LNum true n) _ _ []).
    + rewrite lex_digits, (Hv n eq_refl), (lex_num_end _ _ _ _ Hc).
      simpl. destruct (after_token _ c) as [[ts st]|]; [|reflexivity].
      destruct (lex st rest); reflexivity.
    + simpl. rewrite En. destruct n; [congruence|reflexivity].
Qed.

Lemma dump_members_tail (kv : Z * Z) (r : dict) :
  dump_members (kv :: r) +:+ "}" = dump_member kv +:+ tail_text r.
Proof.
  revert kv. induction r as [|kv' r IH]; intros kv; [reflexivity|].
  change (dump_members (kv :: kv' :: r))
    with (dump_member kv +:+ ", " +:+ dump_members (kv' :: r)).
  rewrite !app_assoc_s, IH. reflexivity.
Qed.

Lemma lex_member (kv : Z * Z) (c : ascii) (rest : string) (t : token) :
  digit_of c = None ->
  lex_start c = Some ([t], LDefault) ->
  lex LDefault (dump_member kv +:+ String c rest)
  = ((member_tokens kv ++ [t]) ++.) <$> lex LDefault rest.
Proof.
  intros Hd Hc. unfold dump_member.
  rewrite app_cons, app_assoc_s, app_cons.
  rewrite (lex_cons_some _ (LStr "") _ _ []) by reflexivity.
  rewrite lex_in_string by apply py_str_numeral.
  change (": " +:+ py_str (snd kv)) with (String ":" (String " " (py_str (snd kv)))).
  rewrite !app_cons.
  rewrite (lex_cons_some _ LDefault _ _ [TColon]) by reflexivity.
  rewrite (lex_cons_some _ LDefault _ _ []) by reflexivity.
  rewrite (lex_int _ _ _ Hd). unfold after_token. rewrite Hc.
  destruct (lex LDefault rest); reflexivity.
Qed.

Lemma lex_tail (r : dict) : lex LDefault (tail_text r) = Some (tail_tokens r).
Proof.
  induction r as [|kv r IH]; [reflexivity|].
  cbn [tail_text tail_tokens].
  change (", " +:+ dump_member kv +:+ tail_text r)
    with (String "," (String " " (dump_member kv +:+ tail_text r))).
  rewrite (lex_cons_some _ LDefault _ _ [TComma]) by reflexivity.
  rewrite (lex_cons_some _ LDefault _ _ []) by reflexivity.
  destruct r as [|kv' r].
  - cbn [tail_text tail_tokens].
    rewrite (lex_member kv "}" "" TRBrace) by reflexivity. reflexivity.
  - cbn [tail_text] in IH |- *.
    change (", " +:+ dump_member kv' +:+ tail_text r)
      with (String "," (String " " (dump_member kv' +:+ tail_text r))) in IH |- *.
    rewrite (lex_member kv "," _ TComma) by reflexivity.
    rewrite (lex_cons_some _ LDefault _ _ [TComma]) in IH by reflexivity.
    rewrite (lex_cons_some _ LDefault _ _ []) in IH by reflexivity.
    rewrite (lex_cons_some _ LDefault _ _ []) by reflexivity.
    destruct (lex LDefault (dump_member kv' +:+ tail_text r)) as [ts|];
      [|discriminate].
    simpl in IH |- *. injection IH as <-. reflexivity.
Qed.

Lemma lex_json_dump (d : dict) :
  lex LDefault (json_dump d)
  = Some (TLBrace :: match d with
                     | [] => [TRBrace]
                     | kv :: r => member_tokens kv ++ tail_tokens r
                     end).
Proof.
  unfold json_dump.
  rewrite (lex_cons_some _ LDefault _ _ [TLBrace]) by reflexivity.
  destruct d as [|kv r]; [reflexivity|].
  rewrite dump_members_tail.
  pose proof (lex_tail r) as Ht.
  destruct r as [|kv' r].
  - cbn [tail_text]. rewrite (lex_member kv "}" "" TRBrace) by reflexivity.
    reflexivity.
  - cbn [tail_text tail_tokens] in Ht |- *.
    change (", " +:+ dump_member kv' +:+ tail_text r)
      with (String "," (String " " (dump_member kv' +:+ tail_text r))) in Ht |- *.
    rewrite (lex_member kv "," _ TComma) by reflexivity.
    rewrite (lex_cons_some _ LDefault _ _ [TComma]) in Ht by reflexivity.
    rewrite (lex_cons_some _ LDefault _ _ []) in Ht by reflexivity.
    rewrite (lex_cons_some _ LDefault _ _ []) by reflexivity.
    destruct (lex LDefault (dump_member kv' +:+ tail_text r)) as [ts|];
      [|discriminate].
    simpl in Ht |- *. injection Ht as <-. reflexivity.
Qed.

Lemma parse_members_tail (kv : Z * Z) (r : dict) (acc : jobject) :
  parse_members (member_tokens kv ++ tail_tokens r) acc
  = Some (fold_left (fun a kv => jobject_set (py_str (fst kv)) (snd kv) a)
            (kv :: r) acc).
Proof.
  revert kv acc. induction r as [|kv' r IH]; intros kv acc; [reflexivity|].
  cbn [tail_tokens]. unfold member_tokens at 1.
  cbn [app parse_members]. rewrite IH. reflexivity.
Qed.

Lemma jobject_set_fresh (k : string) (v : Z) (d : jobject) :
  ~ In k (keys d) -> jobject_set k v d = d ++ [(k, v)].
Proof.
  induction d as [|[k' v'] d IH]; intros Hk; [reflexivity|].
  simpl in Hk |- *. destruct (String.eqb_spec k' k) as [->|Hne].
  - exfalso. apply Hk. left. reflexivity.
  - rewrite IH by tauto. reflexivity.
Qed.

Lemma keys_stringify (d : dict) : keys (stringify d) = map py_str (keys d).
Proof. unfold keys, stringify. rewrite !map_map. reflexivity. Qed.

Lemma set_all_fresh (d : dict) (acc : dict) :
  NoDup (keys (acc ++ d)) ->
  fold_left (fun a kv => jobject_set (py_str (fst kv)) (snd kv) a) d (stringify acc)
  = stringify (acc ++ d).
Proof.
  revert acc. induction d as [|[k v] d IH]; intros acc Hnd.
  - rewrite app_nil_r. reflexivity.
  - cbn [fold_left fst snd].
    replace (acc ++ (k, v) :: d) with ((acc ++ [(k, v)]) ++ d) in Hnd |- *
      by (rewrite <- app_assoc; reflexivity).
    rewrite <- IH by assumption. f_equal.
    rewrite jobject_set_fresh.
    + unfold stringify. rewrite map_app. reflexivity.
    + rewrite keys_stringify. intros Hin.
      apply in_map_iff in Hin as (k' & Heq & Hin).
      apply py_str_inj in Heq. subst k'.
      unfold keys in Hnd. rewrite !map_app in Hnd.
      apply NoDup_app in Hnd as (Hnd & _ & _).
      apply NoDup_app in Hnd as (_ & Hnd & _).
      apply (Hnd k); [apply list_elem_of_In; exact Hin|].
      simpl. left.
Qed.

(** [json.load] reads back what [json.dump] wrote. *)
Lemma json_load_dump (d : dict) :
  NoDup (keys d) -> json_load (json_dump d) = Ok (stringify d).
Proof.
  intros Hnd. unfold json_load.
  change (skip_json_space (json_dump d)) with (json_dump d).
  change (json_dump d) with (String "{" (dump_members d +:+ "}")) at 1.
  change (value_start "{") with true. cbv iota.
  rewrite lex_json_dump.
  destruct d as [|kv r]; [reflexivity|].
  assert (Hp : parse_object (TLBrace :: member_tokens kv ++ tail_tokens r)
               = parse_members (member_tokens kv ++ tail_tokens r) []).
  { reflexivity. }
  rewrite Hp, parse_members_tail.
  f_equal. apply (set_all_fresh (kv :: r) []). exact Hnd.
Qed.

(** ** Dictionaries *)

Lemma dict_get_add (n k c : Z) (d : dict) :
  dict_get n (dict_add k c d)
  = if k =? n then Some (count_of n d + c) else dict_get n d.
Proof.
  unfold count_of. induction d as [|[k' v] d IH]; simpl.
  - destruct (k =? n); reflexivity.
  - destruct (Z.eqb_spec k' k) as [->|Hne]; simpl.
    + destruct (k =? n); reflexivity.
    + destruct (Z.eqb_spec k' n) as [->|Hne'].
      * destruct (Z.eqb_spec k n); [congruence|reflexivity].
      * exact IH.
Qed.

Lemma count_of_add (n k c : Z) (d : dict) :
  count_of n (dict_add k c d)
  = if k =? n then count_of n d + c else count_of n d.
Proof.
  unfold count_of at 1. rewrite dict_get_add.
  destruct (k =? n); reflexivity.
Qed.

Lemma dict_get_None (k : Z) (d : dict) :
  dict_get k d = None <-> ~ In k (keys d).
Proof.
  induction d as [|[k' v] d IH]; simpl; [tauto|].
  destruct (Z.eqb_spec k' k) as [->|Hne]; [split; [discriminate|tauto]|].
  rewrite IH. tauto.
Qed.

Lemma dict_get_In (k v : Z) (d : dict) :
  NoDup (keys d) -> dict_get k d = Some v <-> In (k, v) d.
Proof.
  induction d as [|[k' v'] d IH]; simpl; intros Hnd; [split; [discriminate|tauto]|].
  apply NoDup_cons in Hnd as [Hk' Hnd].
  destruct (Z.eqb_spec k' k) as [->|Hne].
  - split; [intros [= ->]; left; reflexivity|].
    intros [[= ->]|Hin]; [reflexivity|].
    exfalso. apply Hk'. apply list_elem_of_In.
    apply (in_map fst) in Hin. exact Hin.
  - rewrite (IH Hnd). split; [tauto|]. intros [[= ? ?]|?]; [congruence|assumption].
Qed.

Lemma keys_dict_add (k c : Z) (d : dict) :
  keys (dict_add k c d)
  = match dict_get k d with Some _ => keys d | None => keys d ++ [k] end.
Proof.
  induction d as [|[k' v] d IH]; simpl; [reflexivity|].
  destruct (Z.eqb_spec k' k) as [->|Hne]; [reflexivity|].
  simpl. rewrite IH. destruct (dict_get k d); reflexivity.
Qed.

Lemma In_keys_dict_add (n k c : Z) (d : dict) :
  In n (keys (dict_add k c d)) <-> n = k \/ In n (keys d).
Proof.
  rewrite keys_dict_add. destruct (dict_get k d) eqn:E.
  - split; [tauto|]. intros [->|H]; [|exact H].
    destruct (in_dec Z.eq_dec k (keys d)) as [Hin|Hout]; [exact Hin|].
    apply dict_get_None in Hout. congruence.
  - rewrite in_app_iff. simpl. intuition.
Qed.

Lemma NoDup_keys_dict_add (k c : Z) (d : dict) :
  NoDup (keys d) -> NoDup (keys (dict_add k c d)).
Proof.
  intros Hnd. rewrite keys_dict_add. destruct (dict_get k d) eqn:E; [exact Hnd|].
  apply NoDup_app. split; [exact Hnd|]. split; [|apply NoDup_singleton].
  intros x Hx Hx'. apply list_elem_of_singleton in Hx'. subst x.
  apply dict_get_None in E. apply E. apply list_elem_of_In. exact Hx.
Qed.

Lemma dict_add_fresh (k c : Z) (d : dict) :
  ~ In k (keys d) -> dict_add k c d = d ++ [(k, c)].
Proof.
  induction d as [|[k' v] d IH]; simpl; intros Hk; [reflexivity|].
  destruct (Z.eqb_spec k' k) as [->|Hne]; [tauto|].
  rewrite IH by tauto. reflexivity.
Qed.

Lemma count_of_add_all (n : Z) (items : list (Z * Z)) (d : dict) :
  count_of n (add_all items d) = count_of n d + total n items.
Proof.
  unfold add_all. revert d.
  induction items as [|[k c] items IH]; intros d; simpl; [lia|].
  rewrite IH, count_of_add. destruct (k =? n); lia.
Qed.

Lemma In_keys_add_all (n : Z) (items : list (Z * Z)) (d : dict) :
  In n (keys (add_all items d)) <-> In n (keys d) \/ In n (keys items).
Proof.
  unfold add_all. revert d.
  induction items as [|[k c] items IH]; intros d; simpl; [tauto|].
  rewrite IH, In_keys_dict_add. intuition.
Qed.

Lemma NoDup_keys_add_all (items : list (Z * Z)) (d : dict) :
  NoDup (keys d) -> NoDup (keys (add_all items d)).
Proof.
  unfold add_all. revert d.
  induction items as [|[k c] items IH]; intros d Hnd; simpl; [exact Hnd|].
  apply IH, NoDup_keys_dict_add, Hnd.
Qed.

Lemma add_all_app (xs ys : list (Z * Z)) (d : dict) :
  add_all (xs ++ ys) d = add_all ys (add_all xs d).
Proof. unfold add_all. apply fold_left_app. Qed.

Lemma total_app (k : Z) (xs ys : list (Z * Z)) :
  total k (xs ++ ys) = total k xs + total k ys.
Proof. induction xs as [|[k' v] xs IH]; simpl; [reflexivity|]. rewrite IH. lia. Qed.

Lemma total_absent (k : Z) (d : list (Z * Z)) :
  ~ In k (keys d) -> total k d = 0.
Proof.
  induction d as [|[k' v] d IH]; simpl; intros Hk; [reflexivity|].
  destruct (Z.eqb_spec k' k); [tauto|]. rewrite IH by tauto. reflexivity.
Qed.

Lemma total_count_of (k : Z) (d : dict) :
  NoDup (keys d) -> total k d = count_of k d.
Proof.
  unfold count_of.
  induction d as [|[k' v] d IH]; simpl; intros Hnd; [reflexivity|].
  apply NoDup_cons in Hnd as [Hk' Hnd].
  destruct (Z.eqb_spec k' k) as [->|Hne]; [|rewrite IH by assumption; lia].
  rewrite total_absent; [lia|].
  intros Hin. apply Hk', list_elem_of_In, Hin.
Qed.

Lemma total_Permutation (k : Z) (xs ys : list (Z * Z)) :
  Permutation xs ys -> total k xs = total k ys.
Proof.
  induction 1 as [|[k' v] xs ys _ IH|[k1 v1] [k2 v2] xs|xs ys zs _ IH1 _ IH2];
    simpl; lia.
Qed.

Lemma add_all_fresh (d acc : dict) :
  NoDup (keys (acc ++ d)) -> add_all d acc = acc ++ d.
Proof.
  unfold add_all. revert acc.
  induction d as [|[k v] d IH]; intros acc Hnd; simpl.
  - rewrite app_nil_r. reflexivity.
  - replace (acc ++ (k, v) :: d) with ((acc ++ [(k, v)]) ++ d) in Hnd |- *
      by (rewrite <- app_assoc; reflexivity).
    rewrite <- IH by assumption. f_equal.
    rewrite dict_add_fresh; [reflexivity|].
    unfold keys in Hnd. rewrite !map_app in Hnd.
    apply NoDup_app in Hnd as (Hnd & _ & _).
    apply NoDup_app in Hnd as (_ & Hnd & _).
    intros Hin. apply (Hnd k); [apply list_elem_of_In; exact Hin|].
    simpl. left.
Qed.

(** ** The merge loops of [reducer] *)

Lemma merge_items_spec (data : jobject) (final_counts : dict) :
  merge_items data final_counts
  = match decode_items data with
    | Some items => Ok (add_all items final_counts)
    | None => Raise ValueError
    end.
Proof.
  revert final_counts.
  induction data as [|[num count] data IH]; intros fc; simpl; [reflexivity|].
  destruct (py_int num) as [k|]; [|reflexivity].
  rewrite IH. destruct (decode_items data); reflexivity.
Qed.

Lemma decode_items_stringify (d : dict) : decode_items (stringify d) = Some d.
Proof.
  induction d as [|[k v] d IH]; simpl; [reflexivity|].
  rewrite py_int_py_str, IH. reflexivity.
Qed.

Lemma emit_emit (ls1 ls2 : list line) (w : world) :
  emit ls2 (emit ls1 w) = emit (ls1 ++ ls2) w.
Proof. unfold emit. simpl. rewrite app_assoc. reflexivity. Qed.

Lemma emit_nil (w : world) : emit [] w = w.
Proof. destruct w. unfold emit. simpl. rewrite app_nil_r. reflexivity. Qed.

(** [merge_files] either merges the items of every file that decodes,
    touching nothing but the console, or stops at the first file whose
    failure is not handled. *)
Lemma merge_files_spec (names : list string) (final_counts : dict) (w : world) :
  match contributions (listing (outputs w)) names with
  | Ok cs => exists ls, merge_files names final_counts w
                        = Ok (add_all (merged_items cs) final_counts, emit ls w)
  | Raise e => merge_files names final_counts w = Raise e
  | OutOfModel => merge_files names final_counts w = OutOfModel
  end.
Proof.
  revert final_counts w.
  induction names as [|name rest IH]; intros fc w.
  - simpl. exists []. rewrite emit_nil. reflexivity.
  - cbn [contributions merge_files]. unfold contribution.
    destruct (open_read (listing (outputs w)) name) as [text|e|] eqn:Eo;
      cbn [mbind result_bind].
    + destruct (json_load text) as [data|e|] eqn:El; cbn [mbind result_bind].
      * rewrite merge_items_spec.
        destruct (decode_items data) as [items|]; [|reflexivity].
        specialize (IH (add_all items fc) w).
        destruct (contributions (listing (outputs w)) rest) as [cs|e|];
          cbn [mbind result_bind]; [|exact IH..].
        destruct IH as [ls IH]. exists ls. rewrite IH.
        unfold merged_items. cbn [map concat]. rewrite add_all_app. reflexivity.
      * destruct e; try reflexivity.
        -- specialize (IH fc (emit [PrintExn
               ("Error processing " +:+ path_join (REDUCER_DIR w) name +:+ ": ")
               FileNotFoundError] w)).
           cbn [outputs emit] in IH.
           destruct (contributions (listing (outputs w)) rest) as [cs|e|];
             cbn [mbind result_bind]; [|exact IH..].
           destruct IH as [ls IH]. eexists. rewrite IH, emit_emit. reflexivity.
        -- specialize (IH fc (emit [PrintExn
               ("Error processing " +:+ path_join (REDUCER_DIR w) name +:+ ": ")
               JSONDecodeError] w)).
           cbn [outputs emit] in IH.
           destruct (contributions (listing (outputs w)) rest) as [cs|e|];
             cbn [mbind result_bind]; [|exact IH..].
           destruct IH as [ls IH]. eexists. rewrite IH, emit_emit. reflexivity.
      * reflexivity.
    + destruct e; try reflexivity.
      * specialize (IH fc (emit [PrintExn
             ("Error processing " +:+ path_join (REDUCER_DIR w) name +:+ ": ")
             FileNotFoundError] w)).
        cbn [outputs emit] in IH.
        destruct (contributions (listing (outputs w)) rest) as [cs|e|];
          cbn [mbind result_bind]; [|exact IH..].
        destruct IH as [ls IH]. eexists. rewrite IH, emit_emit. reflexivity.
      * specialize (IH fc (emit [PrintExn
             ("Error processing " +:+ path_join (REDUCER_DIR w) name +:+ ": ")
             JSONDecodeError] w)).
        cbn [outputs emit] in IH.
        destruct (contributions (listing (outputs w)) rest) as [cs|e|];
          cbn [mbind result_bind]; [|exact IH..].
        destruct IH as [ls IH]. eexists. rewrite IH, emit_emit. reflexivity.
    + reflexivity.
Qed.

(** ** The stable descending sort *)

Lemma insert_desc_Permutation (x : Z * Z) (l : list (Z * Z)) :
  Permutation (insert_desc x l) (x :: l).
Proof.
  induction l as [|y r IH]; simpl; [reflexivity|].
  destruct (snd x <? snd y); [|reflexivity].
  rewrite IH. apply perm_swap.
Qed.

Lemma sorted_Permutation (l : list (Z * Z)) :
  Permutation (sorted_by_count_desc l) l.
Proof.
  induction l as [|x l IH]; simpl; [reflexivity|].
  rewrite insert_desc_Permutation, IH. reflexivity.
Qed.

Lemma insert_desc_descending (x : Z * Z) (l : list (Z * Z)) :
  descending l -> descending (insert_desc x l).
Proof.
  unfold descending. induction l as [|y r IH]; intros Hs; simpl.
  - constructor; constructor.
  - apply StronglySorted_inv in Hs as [Hr Hy].
    destruct (Z.ltb_spec (snd x) (snd y)) as [Hlt|Hge].
    + constructor; [apply IH, Hr|].
      apply Forall_forall. intros z Hz.
      apply list_elem_of_In in Hz.
      apply (Permutation_in _ (insert_desc_Permutation x r)) in Hz.
      destruct Hz as [<-|Hz]; [lia|].
      rewrite Forall_forall in Hy. apply Hy, list_elem_of_In, Hz.
    + constructor; [constructor; assumption|].
      constructor; [exact Hge|].
      rewrite Forall_forall in Hy |- *. intros z Hz.
      specialize (Hy z Hz). simpl in Hy. lia.
Qed.

Lemma sorted_descending (l : list (Z * Z)) :
  descending (sorted_by_count_desc l).
Proof.
  induction l as [|x l IH]; simpl; [constructor|].
  apply insert_desc_descending, IH.
Qed.

Lemma insert_desc_with_count (c : Z) (x : Z * Z) (l : list (Z * Z)) :
  with_count c (insert_desc x l) = with_count c (x :: l).
Proof.
  unfold with_count. induction l as [|y r IH]; [reflexivity|].
  cbn [insert_desc]. destruct (Z.ltb_spec (snd x) (snd y)) as [Hlt|Hge];
    [|reflexivity].
  cbn [List.filter] in IH |- *. rewrite IH.
  destruct (Z.eqb_spec (snd y) c) as [Hy|Hy]; [|reflexivity].
  destruct (Z.eqb_spec (snd x) c) as [Hx|Hx]; [lia|reflexivity].
Qed.

(** Stability: entries of equal count keep the order they had. *)
Lemma sorted_stable (c : Z) (l : list (Z * Z)) :
  with_count c (sorted_by_count_desc l) = with_count c l.
Proof.
  induction l as [|x l IH]; [reflexivity|].
  cbn [sorted_by_count_desc fold_right].
  rewrite insert_desc_with_count.
  unfold with_count in IH |- *. cbn [List.filter].
  unfold sorted_by_count_desc in IH. rewrite IH. reflexivity.
Qed.

(** ** [mapper] *)

Lemma count_lines_spec (lines : list string) (counts : dict) :
  count_lines lines counts = add_all (parsed_lines lines) counts.
Proof.
  revert counts. induction lines as [|l lines IH]; intros counts; [reflexivity|].
  cbn [count_lines parsed_lines flat_map].
  destruct (py_int (strip l)) as [n|]; rewrite IH; reflexivity.
Qed.

Lemma total_parsed_lines (n : Z) (lines : list string) :
  total n (parsed_lines lines) = Z.of_nat (occurrences n lines).
Proof.
  unfold occurrences.
  induction lines as [|l lines IH]; [reflexivity|].
  cbn [parsed_lines flat_map List.filter].
  destruct (py_int (strip l)) as [m|]; [|exact IH].
  cbn [app total]. fold (parsed_lines lines). rewrite IH.
  destruct (m =? n); cbn [length]; lia.
Qed.

Lemma In_keys_parsed_lines (n : Z) (lines : list string) :
  In n (keys (parsed_lines lines)) <-> (0 < occurrences n lines)%nat.
Proof.
  unfold occurrences.
  induction lines as [|l lines IH]; [simpl; lia|].
  cbn [parsed_lines flat_map List.filter].
  destruct (py_int (strip l)) as [m|]; [|exact IH].
  cbn [app keys map fst In]. fold (parsed_lines lines).
  change (map fst (parsed_lines lines)) with (keys (parsed_lines lines)).
  rewrite IH.
  destruct (Z.eqb_spec m n) as [->|Hne]; cbn [length]; [|tauto].
  split; [lia|]. intros _. left. reflexivity.
Qed.

(** ** The worker pool *)

Section PoolFacts.
Context {A B : Type}.
Variable fn : A -> list line * result B.
Variable items : list A.

Lemma In_without (j i : nat) (l : list nat) :
  In j (without i l) <-> j <> i /\ In j l.
Proof.
  unfold without. rewrite filter_In.
  destruct (Nat.eqb_spec j i); simpl; intuition congruence.
Qed.

Lemma finish_length (i : nat) (p : pool B) :
  length (futures (finish fn items i p)) = length (futures p).
Proof.
  unfold finish. destruct (items !! i); [|reflexivity].
  simpl. apply length_insert.
Qed.

Lemma finish_lookup (i j : nat) (a : A) (p : pool B) :
  length (futures p) = length items ->
  items !! j = Some a ->
  futures p !! j = Some (Some (snd (fn a))) \/ j = i ->
  futures (finish fn items i p) !! j = Some (Some (snd (fn a))).
Proof.
  intros Hlen Hj Hcase. unfold finish.
  destruct (Nat.eq_dec j i) as [->|Hne].
  - rewrite Hj. simpl. apply list_lookup_insert_eq.
    rewrite Hlen. apply lookup_lt_Some in Hj. exact Hj.
  - destruct Hcase as [Hres|]; [|contradiction].
    destruct (items !! i); [|exact Hres].
    simpl. rewrite list_lookup_insert_ne by congruence. exact Hres.
Qed.

Lemma finish_inv (i : nat) (p : pool B) :
  pool_inv fn items p -> pool_inv fn items (finish fn items i p).
Proof.
  intros [Hlen Hinv]. split; [rewrite finish_length; exact Hlen|].
  intros j a Hj.
  destruct (Nat.eq_dec j i) as [->|Hne].
  - left. apply finish_lookup; auto.
  - destruct (Hinv j a Hj) as [Hres|Hin].
    + left. apply finish_lookup; auto.
    + right. unfold finish. destruct (items !! i); [|exact Hin].
      simpl. rewrite in_app_iff in Hin |- *.
      rewrite !In_without. tauto.
Qed.

Lemma submit_all_inv : pool_inv fn items (submit_all items).
Proof.
  split; [apply length_replicate|].
  intros i a Hi. right. simpl. apply in_seq.
  apply lookup_lt_Some in Hi. lia.
Qed.

Lemma pool_step_inv (max_workers : nat) (p : pool B) (ev : pool_event) :
  pool_inv fn items p -> pool_inv fn items (pool_step fn items max_workers p ev).
Proof.
  intros Hp. destruct ev as [|i]; simpl.
  - destruct (queue p) as [|i q] eqn:Eq; [exact Hp|].
    destruct (length (running p) <? max_workers)%nat; [|exact Hp].
    destruct Hp as [Hlen Hinv]. split; [exact Hlen|].
    intros j a Hj. simpl. destruct (Hinv j a Hj) as [Hres|Hin]; [left; exact Hres|].
    right. rewrite Eq in Hin. apply in_app_iff in Hin.
    apply in_app_iff. destruct Hin as [Hin|[->|Hin]].
    * left. apply in_app_iff. left. exact Hin.
    * left. apply in_app_iff. right. left. reflexivity.
    * right. exact Hin.
  - destruct (existsb (Nat.eqb i) (running p)); [|exact Hp].
    apply finish_inv, Hp.
Qed.

Lemma schedule_inv (max_workers : nat) (sched : list pool_event) (p : pool B) :
  pool_inv fn items p -> pool_inv fn items (fold_left (pool_step fn items max_workers) sched p).
Proof.
  revert p. induction sched as [|ev sched IH]; intros p Hp; [exact Hp|].
  simpl. apply IH, pool_step_inv, Hp.
Qed.

Lemma finish_all_lookup (l : list nat) (p : pool B) (j : nat) (a : A) :
  length (futures p) = length items ->
  items !! j = Some a ->
  futures p !! j = Some (Some (snd (fn a))) \/ In j l ->
  futures (fold_left (fun p i => finish fn items i p) l p) !! j
  = Some (Some (snd (fn a))).
Proof.
  revert p. induction l as [|i l IH]; intros p Hlen Hj Hcase; simpl.
  - destruct Hcase as [H|[]]. exact H.
  - apply IH; [rewrite finish_length; exact Hlen|exact Hj|].
    destruct Hcase as [H|[->|H]]; [left|left|right; exact H];
      apply finish_lookup; auto.
Qed.

Lemma finish_all_length (l : list nat) (p : pool B) :
  length (futures (fold_left (fun p i => finish fn items i p) l p))
  = length (futures p).
Proof.
  revert p. induction l as [|i l IH]; intros p; simpl; [reflexivity|].
  rewrite IH. apply finish_length.
Qed.

(** After [shutdown] the futures hold the results of [fn] on the items,
    slot by slot. *)
Lemma shutdown_futures (p : pool B) :
  pool_inv fn items p ->
  futures (shutdown fn items p) = map (fun a => Some (snd (fn a))) items.
Proof.
  intros [Hlen Hinv]. unfold shutdown. apply list_eq. intros j.
  change (map (fun a => Some (snd (fn a))) items)
    with ((fun a => Some (snd (fn a))) <$> items).
  rewrite list_lookup_fmap.
  destruct (items !! j) as [a|] eqn:Hj; simpl.
  - apply finish_all_lookup; auto.
  - apply lookup_ge_None. rewrite finish_all_length, Hlen.
    apply lookup_ge_None. exact Hj.
Qed.

(** The results of the map do not depend on the schedule of the workers
    nor on their number. *)
Lemma executor_map_results (max_workers : nat) (sched : list pool_event) :
  (1 <= max_workers)%nat ->
  snd (executor_map fn items max_workers sched)
  = gather (map (fun a => Some (snd (fn a))) items).
Proof.
  intros Hw. unfold executor_map.
  destruct max_workers as [|n]; [lia|]. simpl.
  rewrite shutdown_futures; [reflexivity|].
  apply schedule_inv, submit_all_inv.
Qed.

Lemma gather_all_ok (g : A -> B) (l : list A) :
  (forall a, In a l -> snd (fn a) = Ok (g a)) ->
  gather (map (fun a => Some (snd (fn a))) l) = Ok (map g l).
Proof.
  induction l as [|a l IH]; intros Hok; [reflexivity|].
  cbn [map gather]. rewrite (Hok a) by (left; reflexivity).
  cbn [mbind result_bind]. rewrite IH; [reflexivity|].
  intros b Hb. apply Hok. right. exact Hb.
Qed.
End PoolFacts.

(** ** Files *)

Lemma dir_write_inv (name text : string) (d d' : directory) :
  dir_write name text d = Ok d' ->
  is_entry_name name = true /\ dir_store name text d = Ok d'.
Proof.
  unfold dir_write. destruct (is_entry_name name); [auto|discriminate].
Qed.

Lemma dir_write_ok (name text : string) (d : directory) :
  is_entry_name name = true -> writable d name = true ->
  exists d', dir_write name text d = Ok d'.
Proof.
  unfold dir_write, writable. intros ->.
  induction d as [|[n e] d IH]; cbn [dir_lookup dir_store]; intros Hd;
    [eexists; reflexivity|].
  destruct (String.eqb n name).
  - destruct e as [[|] t|]; [eexists; reflexivity|discriminate..].
  - destruct (IH Hd) as [d' ->]. eexists. reflexivity.
Qed.

Lemma dir_write_lookup (name text : string) (d d' : directory) :
  dir_write name text d = Ok d' ->
  dir_lookup name d' = Some (File true text).
Proof.
  intros Hw. apply dir_write_inv in Hw as [_ Hw].
  revert d' Hw. induction d as [|[n e] d IH]; cbn [dir_store]; intros d' Hw.
  - injection Hw as <-. cbn [dir_lookup]. rewrite String.eqb_refl. reflexivity.
  - destruct (String.eqb n name) eqn:En.
    + destruct e as [[|] t|]; try discriminate. injection Hw as <-.
      cbn [dir_lookup]. rewrite En. reflexivity.
    + destruct (dir_store name text d) as [d1| |]; try discriminate.
      injection Hw as <-. cbn [dir_lookup]. rewrite En. apply IH. reflexivity.
Qed.

Lemma dir_write_other (name text n : string) (d d' : directory) :
  dir_write name text d = Ok d' -> n <> name ->
  dir_lookup n d' = dir_lookup n d.
Proof.
  intros Hw. apply dir_write_inv in Hw as [_ Hw].
  revert d' Hw. induction d as [|[n0 e] d IH]; cbn [dir_store]; intros d' Hw Hn.
  - injection Hw as <-. cbn [dir_lookup].
    destruct (String.eqb_spec name n); [congruence|reflexivity].
  - destruct (String.eqb_spec n0 name) as [->|Hne].
    + destruct e as [[|] t|]; try discriminate. injection Hw as <-.
      cbn [dir_lookup].
      destruct (String.eqb_spec name n); [congruence|reflexivity].
    + destruct (dir_store name text d) as [d1| |]; try discriminate.
      injection Hw as <-. cbn [dir_lookup].
      destruct (String.eqb n0 n); [reflexivity|]. apply IH; auto.
Qed.

(** Writing a file whose name does not end in [.json] leaves the set of
    discovered record files as it was. *)
Lemma dir_write_glob_json (name text : string) (d d' : directory) :
  has_suffix ".json" name = false ->
  dir_write name text d = Ok d' -> glob_json d' = glob_json d.
Proof.
  intros Hs Hw. apply dir_write_inv in Hw as [_ Hw]. unfold glob_json.
  revert d' Hw.
  induction d as [|[n e] d IH]; cbn [dir_store]; intros d' Hw.
  - injection Hw as <-. cbn [List.filter fst]. rewrite Hs, andb_false_r.
    reflexivity.
  - destruct (String.eqb_spec n name) as [->|Hne].
    + destruct e as [[|] t|]; try discriminate. injection Hw as <-.
      cbn [List.filter fst]. rewrite Hs, andb_false_r. reflexivity.
    + destruct (dir_store name text d) as [d1| |]; try discriminate.
      injection Hw as <-. specialize (IH d1 eq_refl). cbn [List.filter fst].
      destruct (globbed n && has_suffix ".json" n)%bool; cbn [map];
        rewrite IH; reflexivity.
Qed.

Lemma has_char_app (q : ascii) (s t : string) :
  has_char q (s +:+ t) = (has_char q s || has_char q t)%bool.
Proof.
  induction s as [|c s IH]; [rewrite app_empty_l; reflexivity|].
  rewrite app_cons. cbn [has_char]. rewrite IH, orb_assoc. reflexivity.
Qed.

Lemma has_char_numeral (q : ascii) (z : Z) :
  numeral_char q = false -> has_char q (py_str z) = false.
Proof.
  intros Hq. pose proof (py_str_numeral z) as H.
  induction (py_str z) as [|c s IH]; [reflexivity|].
  cbn [all_chars] in H. apply andb_prop in H as [Hc Hs].
  cbn [has_char]. rewrite (IH Hs), orb_false_r.
  destruct (Ascii.eqb_spec c q) as [->|]; [congruence|reflexivity].
Qed.

(** The name of a record is the name of an entry. *)
Lemma mapper_output_entry_name (i : nat) : is_entry_name (mapper_output i) = true.
Proof.
  unfold is_entry_name, mapper_output, py_str_nat.
  rewrite !has_char_app, !has_char_numeral by reflexivity.
  reflexivity.
Qed.

Lemma glob_json_suffix (d : directory) (name : string) :
  In name (glob_json d) -> has_suffix ".json" name = true.
Proof.
  unfold glob_json. intros Hin.
  apply in_map_iff in Hin as ([n e] & <- & Hin).
  apply filter_In in Hin as [_ Hp]. simpl in Hp.
  apply andb_prop in Hp as [_ Hp]. exact Hp.
Qed.

Lemma contribution_ext (d d' : directory) (name : string) :
  dir_lookup name d' = dir_lookup name d ->
  contribution d' name = contribution d name.
Proof. intros H. unfold contribution, open_read. rewrite H. reflexivity. Qed.

Lemma contributions_ext (d d' : directory) (names : list string) :
  (forall name, In name names -> dir_lookup name d' = dir_lookup name d) ->
  contributions d' names = contributions d names.
Proof.
  induction names as [|name names IH]; intros H; [reflexivity|].
  simpl. rewrite (contribution_ext d d') by (apply H; left; reflexivity).
  rewrite IH; [reflexivity|]. intros n Hn. apply H. right. exact Hn.
Qed.

(** ** [reducer] *)

Lemma reducer_no_records (w : world) :
  glob_json (listing (outputs w)) = [] ->
  reducer w = Ok (print no_records_message w).
Proof. intros H. unfold reducer. rewrite H. reflexivity. Qed.

(** A run of [reducer] that returns either found no record file and only
    printed, or merged the discovered files and wrote the report of their
    merged mapping into [final_output.txt]. *)
Lemma reducer_inv (w w' : world) :
  reducer w = Ok w' ->
  (glob_json (listing (outputs w)) = [] /\ w' = print no_records_message w)
  \/ exists d cs d' ls,
       outputs w = Some d /\ glob_json d <> [] /\
       contributions d (glob_json d) = Ok cs /\
       dir_write "final_output.txt"
         (report_text (top6 (add_all (merged_items cs) []))) d = Ok d' /\
       w' = emit ls (set_outputs (Some d') w).
Proof.
  intros Hr. unfold reducer in Hr.
  destruct (glob_json (listing (outputs w))) as [|n ns] eqn:Eg.
  - left. split; [reflexivity|]. injection Hr as <-. reflexivity.
  - right.
    destruct (outputs w) as [d|] eqn:Eo; [|discriminate Eg].
    cbn [listing] in Eg.
    pose proof (merge_files_spec (n :: ns) [] (print "Reducer started..." w))
      as Hm.
    cbn [print emit outputs] in Hm. rewrite Eo in Hm. cbn [listing] in Hm.
    unfold print in Hm, Hr.
    destruct (contributions d (n :: ns)) as [cs|e|] eqn:Ec.
    + destruct Hm as [ls Hm]. rewrite Hm in Hr.
      cbn [mbind result_bind] in Hr.
      cbn [outputs emit] in Hr. rewrite Eo in Hr. unfold write_file in Hr.
      destruct (dir_write "final_output.txt"
                  (report_text (top6 (add_all (merged_items cs) []))) d)
        as [d'| |] eqn:Ew;
        unfold top6 in Ew; rewrite Ew in Hr;
        cbn [mbind result_bind] in Hr; try discriminate.
      injection Hr as <-.
      exists d, cs, d'. eexists. split; [reflexivity|].
      rewrite Eg. split; [congruence|]. split; [exact Ec|]. split; [exact Ew|].
      unfold set_outputs, emit. cbn. rewrite <- !app_assoc.
      reflexivity.
    + rewrite Hm in Hr. discriminate.
    + rewrite Hm in Hr. discriminate.
Qed.

(** ** [run_mappers] *)

Lemma app_inv_tail_s (s s' t : string) : s +:+ t = s' +:+ t -> s = s'.
Proof.
  revert s'. induction s as [|c s IH]; intros [|c' s'] H.
  - reflexivity.
  - apply (f_equal String.length) in H. rewrite !length_app_s in H.
    simpl in H. lia.
  - apply (f_equal String.length) in H. rewrite !length_app_s in H.
    simpl in H. lia.
  - rewrite !app_cons in H. injection H as -> H. f_equal. apply IH, H.
Qed.

Lemma mapper_output_inj (i j : nat) : mapper_output i = mapper_output j -> i = j.
Proof.
  unfold mapper_output, py_str_nat. intros H.
  apply (inj (String.app "mapper_output_")) in H.
  apply app_inv_tail_s, py_str_inj in H. lia.
Qed.

Lemma run_mappers_no_input (sched : list pool_event) (w : world) :
  data_files w = [] ->
  run_mappers sched w
  = Ok (print no_input_message (set_outputs (makedirs (outputs w)) w)).
Proof.
  intros H. unfold run_mappers. cbn [data set_outputs].
  unfold data_files in H. rewrite H. reflexivity.
Qed.

(** [save_results] writes the record of [rs !! j] under the name of index
    [i + j] and touches no other name. *)
Lemma save_results_spec (rs : list dict) (i : nat) (w : world) (d : directory) :
  outputs w = Some d ->
  (forall j, (j < length rs)%nat ->
     writable d (mapper_output (i + j)) = true) ->
  exists d' ls,
    save_results i rs w = Ok (emit ls (set_outputs (Some d') w)) /\
    (forall j r, rs !! j = Some r ->
       dir_lookup (mapper_output (i + j)) d'
       = Some (File true (json_dump r))) /\
    (forall n, (forall j, (j < length rs)%nat -> n <> mapper_output (i + j)) ->
       dir_lookup n d' = dir_lookup n d).
Proof.
  revert i w d. induction rs as [|r rs IH]; intros i w d Ho Hnd.
  - exists d, []. cbn [save_results]. rewrite emit_nil.
    split; [destruct w; unfold set_outputs; simpl in *; congruence|].
    split; [intros j r Hj; discriminate|reflexivity].
  - cbn [save_results]. rewrite Ho. cbn [write_file].
    destruct (dir_write_ok (mapper_output i) (json_dump r) d) as [d1 Hw].
    { apply mapper_output_entry_name. }
    { specialize (Hnd O). rewrite Nat.add_0_r in Hnd. apply Hnd. simpl. lia. }
    rewrite Hw. cbn [mbind result_bind].
    set (w1 := print _ _).
    destruct (IH (S i) w1 d1) as (d' & ls & Hs & Hin & Hout).
    { reflexivity. }
    { intros j Hj. unfold writable. rewrite (dir_write_other _ _ _ _ _ Hw).
      - replace (S i + j)%nat with (i + S j)%nat by lia. apply Hnd. simpl. lia.
      - intros E. apply mapper_output_inj in E. lia. }
    exists d'. eexists. split; [|split].
    + rewrite Hs. subst w1. unfold print, set_outputs, emit. cbn.
      rewrite <- app_assoc. reflexivity.
    + intros [|j] r' Hj.
      * injection Hj as <-. rewrite Nat.add_0_r.
        rewrite Hout.
        -- apply (dir_write_lookup _ _ _ _ Hw).
        -- intros j Hj E. apply mapper_output_inj in E. lia.
      * replace (i + S j)%nat with (S i + j)%nat by lia. apply Hin, Hj.
    + intros n Hn. rewrite Hout.
      * apply (dir_write_other _ _ _ _ _ Hw).
        specialize (Hn O). rewrite Nat.add_0_r in Hn. apply Hn. simpl. lia.
      * intros j Hj. replace (S i + j)%nat with (i + S j)%nat by lia.
        apply Hn. simpl. lia.
Qed.

Lemma mapper_readable (w : world) (name text : string) :
  open_read (data w) name = Ok text ->
  mapper w name
  = ([Print ("Mapper started for " +:+ path_join (DATA_DIR w) name);
      Print ("Mapper finished for " +:+ path_join (DATA_DIR w) name)],
     Ok (frequency w name)).
Proof.
  intros H. unfold mapper, mapper_path, frequency. rewrite H. reflexivity.
Qed.

Lemma mapper_missing (w : world) (name : string) :
  open_read (data w) name = Raise FileNotFoundError ->
  mapper w name
  = ([Print ("Mapper started for " +:+ path_join (DATA_DIR w) name);
      Print ("Error: File not found at " +:+ path_join (DATA_DIR w) name)],
     Ok []).
Proof. intros H. unfold mapper, mapper_path. rewrite H. reflexivity. Qed.

(** The result of [mapper] does not depend on how the path of the file
    is written. *)
Lemma mapper_path_result (p q : string) (w : world) (name : string) :
  snd (mapper_path p w name) = snd (mapper_path q w name).
Proof.
  unfold mapper_path.
  destruct (open_read (data w) name) as [text|[]|]; reflexivity.
Qed.

Lemma glob_mapper_result (w : world) (name : string) :
  snd (glob_mapper w name) = snd (mapper w name).
Proof. apply mapper_path_result. Qed.

Lemma run_mappers_unfold (sched : list pool_event) (w : world) :
  data_files w <> [] ->
  run_mappers sched w
  = let w0 := set_outputs (makedirs (outputs w)) w in
    let run := executor_map (glob_mapper w0) (data_files w) 4 sched in
    mapper_results ← snd run;
    w1 ← save_results 0 mapper_results (emit (fst run) w0);
    Ok (print "All mappers have completed." w1).
Proof.
  intros H. unfold run_mappers, data_files in *. cbn [data set_outputs].
  destruct (List.filter (isfile (data w)) (glob_star (data w)));
    [congruence|reflexivity].
Qed.

(** With every data file read and every record name free for writing,
    the mapper stage returns and has stored, under index [i], the
    mapping of the [i]-th data file. *)
Lemma run_mappers_spec (sched : list pool_event) (w : world) :
  (forall name, In name (data_files w) ->
     exists text, open_read (data w) name = Ok text) ->
  (forall i, (i < length (data_files w))%nat ->
     writable (listing (outputs w)) (mapper_output i) = true) ->
  exists w',
    run_mappers sched w = Ok w' /\
    data w' = data w /\
    forall i name, data_files w !! i = Some name ->
      dir_lookup (mapper_output i) (listing (outputs w'))
      = Some (File true (json_dump (frequency w name))).
Proof.
  intros Hread Hnd.
  destruct (data_files w) as [|n ns] eqn:Ed.
  - rewrite run_mappers_no_input by exact Ed. eexists. split; [reflexivity|].
    split; [reflexivity|]. intros i name Hi. discriminate.
  - assert (Hne : data_files w <> []) by congruence.
    rewrite (run_mappers_unfold _ _ Hne). rewrite <- Ed in *. clear Ed n ns.
    cbv zeta.
    set (w0 := set_outputs (makedirs (outputs w)) w).
    assert (Hres : snd (executor_map (glob_mapper w0) (data_files w) 4 sched)
                   = Ok (map (frequency w) (data_files w))).
    { rewrite executor_map_results by lia.
      apply gather_all_ok. intros name Hin.
      destruct (Hread name Hin) as [text Ht].
      rewrite glob_mapper_result.
      change (mapper w0 name) with (mapper w name).
      rewrite (mapper_readable _ _ _ Ht). reflexivity. }
    rewrite Hres. cbn [mbind result_bind].
    set (w1 := emit _ w0).
    destruct (save_results_spec (map (frequency w) (data_files w)) 0 w1
                (listing (outputs w))) as (d' & ls & Hs & Hin & _).
    { subst w1 w0. cbn. destruct (outputs w); reflexivity. }
    { intros j Hj. rewrite length_map in Hj. apply Hnd. exact Hj. }
    rewrite Hs. cbn [mbind result_bind]. eexists. split; [reflexivity|].
    split; [reflexivity|].
    intros i name Hi. cbn [print emit set_outputs outputs listing].
    apply (Hin i). change (map (frequency w) (data_files w))
      with (frequency w <$> data_files w).
    rewrite list_lookup_fmap, Hi. reflexivity.
Qed.

(** ** Consequences for the merge *)

Lemma contributions_Forall2 (d : directory) (names : list string)
    (cs : list (option (list (Z * Z)))) :
  contributions d names = Ok cs <->
  Forall2 (fun name c => contribution d name = Ok c) names cs.
Proof.
  revert cs. induction names as [|name names IH]; intros cs; simpl.
  - split.
    + intros [= <-]. constructor.
    + intros H. apply Forall2_nil_inv_l in H. subst. reflexivity.
  - split.
    + destruct (contribution d name) as [c| |] eqn:Ec; try discriminate.
      cbn [mbind result_bind].
      destruct (contributions d names) as [cs'| |] eqn:Ecs; try discriminate.
      cbn [mbind result_bind]. intros [= <-]. constructor; [exact Ec|].
      apply IH. reflexivity.
    + intros H. apply Forall2_cons_inv_l in H as (c & cs' & Hc & Hcs & ->).
      rewrite Hc. cbn [mbind result_bind].
      apply IH in Hcs. rewrite Hcs. reflexivity.
Qed.

Lemma contributions_Permutation (d : directory) (names names' : list string)
    (cs : list (option (list (Z * Z)))) :
  Permutation names names' ->
  contributions d names = Ok cs ->
  exists cs', contributions d names' = Ok cs' /\ Permutation cs cs'.
Proof.
  intros Hp. revert cs.
  induction Hp as [|n l l' _ IH|n1 n2 l|l1 l2 l3 _ IH1 _ IH2]; intros cs Hc.
  - exists cs. split; [exact Hc|reflexivity].
  - apply contributions_Forall2 in Hc.
    apply Forall2_cons_inv_l in Hc as (c & cs0 & Hc & Hcs & ->).
    apply contributions_Forall2 in Hcs.
    destruct (IH _ Hcs) as (cs' & Hcs' & Hperm).
    exists (c :: cs'). split; [|constructor; exact Hperm].
    simpl. rewrite Hc. cbn [mbind result_bind]. rewrite Hcs'. reflexivity.
  - apply contributions_Forall2 in Hc.
    apply Forall2_cons_inv_l in Hc as (c2 & cs0 & Hc2 & Hcs & ->).
    apply Forall2_cons_inv_l in Hcs as (c1 & cs1 & Hc1 & Hcs & ->).
    apply contributions_Forall2 in Hcs.
    exists (c1 :: c2 :: cs1). split; [|apply perm_swap].
    simpl. rewrite Hc1, Hc2. cbn [mbind result_bind]. rewrite Hcs. reflexivity.
  - destruct (IH1 _ Hc) as (cs2 & Hc2 & Hp12).
    destruct (IH2 _ Hc2) as (cs3 & Hc3 & Hp23).
    exists cs3. split; [exact Hc3|]. etransitivity; eassumption.
Qed.

Lemma merged_items_Permutation (cs cs' : list (option (list (Z * Z)))) :
  Permutation cs cs' -> Permutation (merged_items cs) (merged_items cs').
Proof.
  unfold merged_items.
  induction 1 as [|c l l' _ IH|c1 c2 l|l1 l2 l3 _ IH1 _ IH2]; simpl.
  - reflexivity.
  - apply Permutation_app_head, IH.
  - rewrite !app_assoc. apply Permutation_app_tail, Permutation_app_comm.
  - etransitivity; eassumption.
Qed.

Lemma dict_get_char (k : Z) (d : dict) :
  dict_get k d
  = if in_dec Z.eq_dec k (keys d) then Some (count_of k d) else None.
Proof.
  destruct (in_dec Z.eq_dec k (keys d)) as [Hin|Hout].
  - unfold count_of. destruct (dict_get k d) eqn:E; [reflexivity|].
    apply dict_get_None in E. contradiction.
  - apply dict_get_None, Hout.
Qed.

Lemma add_all_Permutation (xs ys : list (Z * Z)) :
  Permutation xs ys -> same_entries (add_all xs []) (add_all ys []).
Proof.
  intros Hp k v.
  rewrite <- !dict_get_In by (apply NoDup_keys_add_all; constructor).
  rewrite !dict_get_char, !count_of_add_all, (total_Permutation k xs ys Hp).
  assert (Hk : In k (keys (add_all xs [])) <-> In k (keys (add_all ys []))).
  { rewrite !In_keys_add_all. unfold keys.
    split; (intros [H|H]; [left; exact H|right]).
    - eapply Permutation_in; [apply Permutation_map, Hp|exact H].
    - eapply Permutation_in; [apply Permutation_map, Permutation_sym, Hp|exact H]. }
  destruct (in_dec Z.eq_dec k (keys (add_all xs [])));
    destruct (in_dec Z.eq_dec k (keys (add_all ys []))); tauto.
Qed.

(** When every file decodes, [merge_files] merges the items of all of
    them, prints nothing and changes nothing. *)
Lemma merge_files_all_decoded (names : list string)
    (records : list (list (Z * Z))) (final_counts : dict) (w : world) :
  Forall2 (fun name items =>
             contribution (listing (outputs w)) name = Ok (Some items))
          names records ->
  merge_files names final_counts w
  = Ok (add_all (concat records) final_counts, w).
Proof.
  intros H. revert final_counts.
  induction H as [|name items names records Hc _ IH]; intros fc; [reflexivity|].
  cbn [merge_files concat]. rewrite add_all_app, <- IH.
  unfold contribution in Hc.
  destruct (open_read (listing (outputs w)) name) as [text|e|];
    cbn [mbind result_bind] in Hc |- *;
    [|destruct e; discriminate|discriminate].
  destruct (json_load text) as [data|e|];
    cbn [mbind result_bind] in Hc |- *;
    [|destruct e; discriminate|discriminate].
  rewrite merge_items_spec.
  destruct (decode_items data) as [items'|]; [|discriminate].
  injection Hc as <-. reflexivity.
Qed.

(** The record that [run_mappers] stores for a mapping decodes to it. *)
Lemma contribution_of_dump (d : directory) (name : string) (m : dict) :
  NoDup (keys m) ->
  open_read d name = Ok (json_dump m) ->
  contribution d name = Ok (Some m).
Proof.
  intros Hnd Ho. unfold contribution. rewrite Ho. cbn [mbind result_bind].
  rewrite (json_load_dump _ Hnd). cbn [mbind result_bind].
  rewrite decode_items_stringify. reflexivity.
Qed.

Lemma total_concat (k : Z) (ms : list dict) :
  Forall (fun m => NoDup (keys m)) ms ->
  total k (concat ms) = sum_counts k ms.
Proof.
  unfold sum_counts. induction 1 as [|m ms Hm _ IH]; [reflexivity|].
  cbn [concat map fold_right]. rewrite total_app, IH, (total_count_of _ _ Hm).
  reflexivity.
Qed.

Lemma In_keys_concat (k : Z) (ms : list dict) :
  In k (keys (concat ms)) <-> exists m, In m ms /\ In k (keys m).
Proof.
  unfold keys. induction ms as [|m ms IH]; simpl.
  - split; [tauto|]. intros (m & [] & _).
  - rewrite map_app, in_app_iff, IH. split.
    + intros [H|(m' & Hm' & H)]; [exists m; tauto|exists m'; tauto].
    + intros (m' & [<-|Hm'] & H); [left; exact H|right; exists m'; tauto].
Qed.

(** [reducer] returns whenever the discovered files can be merged and the
    report can be written. *)
Lemma reducer_run (w : world) (d d' : directory)
    (cs : list (option (list (Z * Z)))) :
  outputs w = Some d -> glob_json d <> [] ->
  contributions d (glob_json d) = Ok cs ->
  dir_write "final_output.txt"
    (report_text (top6 (add_all (merged_items cs) []))) d = Ok d' ->
  exists ls, reducer w = Ok (emit ls (set_outputs (Some d') w)).
Proof.
  intros Ho Hg Hc Hw. unfold reducer. rewrite Ho. cbn [listing].
  destruct (glob_json d) as [|n ns] eqn:Eg; [congruence|].
  pose proof (merge_files_spec (n :: ns) [] (print "Reducer started..." w))
    as Hm.
  cbn [print emit outputs] in Hm. rewrite Ho in Hm. cbn [listing] in Hm.
  rewrite Hc in Hm. destruct Hm as [ls Hm]. unfold print in Hm |- *.
  rewrite Hm. cbn [mbind result_bind]. cbn [outputs emit]. rewrite Ho.
  unfold write_file. unfold top6 in Hw. rewrite Hw. cbn [mbind result_bind].
  eexists. f_equal. unfold set_outputs, emit. cbn. rewrite <- !app_assoc.
  reflexivity.
Qed.

Lemma dir_write_again (name text : string) (d d' : directory) :
  dir_write name text d = Ok d' -> dir_write name text d' = Ok d'.
Proof.
  intros Hw. apply dir_write_inv in Hw as [Hn Hw]. unfold dir_write.
  rewrite Hn. revert d' Hw.
  induction d as [|[n e] d IH]; cbn [dir_store]; intros d' Hw.
  - injection Hw as <-. cbn [dir_store]. rewrite String.eqb_refl. reflexivity.
  - destruct (String.eqb n name) eqn:En.
    + destruct e as [[|] t|]; try discriminate. injection Hw as <-.
      cbn [dir_store]. rewrite En. reflexivity.
    + destruct (dir_store name text d) as [d1| |]; try discriminate.
      injection Hw as <-. cbn [dir_store]. rewrite En, (IH d1 eq_refl).
      reflexivity.
Qed.

(** What a run of [reducer] over at least one record file leaves in
    [final_output.txt]: the report of the mapping merged from the items
    of the files. *)
Lemma reducer_writes_top6 (w w' : world) :
  reducer w = Ok w' ->
  glob_json (listing (outputs w)) <> [] ->
  exists cs readable,
    contributions (listing (outputs w)) (glob_json (listing (outputs w)))
    = Ok cs /\
    report_of (Ok w')
    = Some (File readable (report_text (top6 (add_all (merged_items cs) [])))).
Proof.
  intros Hr Hg.
  apply reducer_inv in Hr as [[Hg' _]|(d & cs & d' & ls & Ho & _ & Hc & Hw & ->)];
    [contradiction|].
  rewrite Ho. cbn [listing]. exists cs. eexists. split; [exact Hc|].
  cbn [report_of emit set_outputs outputs listing].
  apply (dir_write_lookup _ _ _ _ Hw).
Qed.

(* ================================================================== *)
(** * The claims *)

(** ** C1 *)

(** C1, as stated, fails.  With no input file but a record left by an
    earlier run, [main] goes on to the reducer, which starts, merges the
    old record and writes a report file that was not there before. *)
Lemma empty_input_reaches_reducer :
  data_files stale_world = [] /\
  dir_lookup "final_output.txt" (listing (outputs stale_world)) = None /\
  exists w',
    main [] stale_world = Ok w' /\
    In (Print "Reducer started...") (console w') /\
    dir_lookup "final_output.txt" (listing (outputs w'))
    = Some (File true (report_text [(1, 1)])).
Proof.
  split; [reflexivity|]. split; [reflexivity|].
  eexists. split; [vm_compute; reflexivity|].
  split; [|reflexivity].
  simpl. right. left. reflexivity.
Qed.

(** C1, amended.  With an empty input file set, [run_mappers] returns
    after printing the no-input message, having written no record (the
    entries of the reducer directory are unchanged); [main] then runs
    [reducer] on that world.  When the reducer directory holds no
    [*.json] file, the reducer only prints its own message: the run ends
    with no report file written. *)
Theorem empty_input_writes_no_record (sched : list pool_event) (w : world) :
  data_files w = [] ->
  exists w1,
    run_mappers sched w = Ok w1 /\
    listing (outputs w1) = listing (outputs w) /\
    console w1 = console w ++ [Print no_input_message] /\
    main sched w = reducer w1 /\
    (glob_json (listing (outputs w)) = [] ->
     exists w2,
       main sched w = Ok w2 /\
       listing (outputs w2) = listing (outputs w) /\
       console w2
       = console w ++ [Print no_input_message; Print no_records_message]).
Proof.
  intros Hd.
  exists (print no_input_message (set_outputs (makedirs (outputs w)) w)).
  assert (Hl : listing (makedirs (outputs w)) = listing (outputs w)).
  { destruct (outputs w); reflexivity. }
  split; [apply run_mappers_no_input, Hd|].
  split; [exact Hl|]. split; [reflexivity|].
  split.
  - unfold main. rewrite (run_mappers_no_input _ _ Hd). reflexivity.
  - intros Hg. unfold main. rewrite (run_mappers_no_input _ _ Hd).
    cbn [mbind result_bind]. rewrite reducer_no_records.
    + eexists. split; [reflexivity|]. split; [exact Hl|].
      cbn. rewrite <- app_assoc. reflexivity.
    + cbn [print emit set_outputs outputs]. rewrite Hl. exact Hg.
Qed.

Lemma empty_input_writes_no_record_witness :
  data_files fresh_world = [] /\
  exists w1,
    run_mappers [Dispatch] fresh_world = Ok w1 /\
    listing (outputs w1) = listing (outputs fresh_world) /\
    console w1 = console fresh_world ++ [Print no_input_message] /\
    main [Dispatch] fresh_world = reducer w1 /\
    (glob_json (listing (outputs fresh_world)) = [] ->
     exists w2,
       main [Dispatch] fresh_world = Ok w2 /\
       listing (outputs w2) = listing (outputs fresh_world) /\
       console w2
       = console fresh_world
         ++ [Print no_input_message; Print no_records_message]).
Proof.
  split; [reflexivity|].
  apply (empty_input_writes_no_record [Dispatch] fresh_world). reflexivity.
Defined.

(** ** C2 *)

(** C2, as stated, fails.  One record file is discovered and does not
    decode, so no valid record is obtained; the reducer still writes a
    report file, made of the header line alone. *)
Lemma all_corrupt_writes_header_only :
  glob_json (listing (outputs corrupt_world)) = ["mapper_output_0.json"] /\
  contributions (listing (outputs corrupt_world))
    (glob_json (listing (outputs corrupt_world))) = Ok [None] /\
  dir_lookup "final_output.txt" (listing (outputs corrupt_world)) = None /\
  report_of (reducer corrupt_world)
  = Some (File true (report_header +:+ String LF "")).
Proof. repeat split; reflexivity. Qed.

(** C2, amended.  When the reducer discovers no record file (no [*.json]
    name in the reducer directory) it prints its nothing-to-aggregate
    message and returns: the reducer directory is unchanged, so no report
    file is written. *)
Theorem no_record_file_no_report (w : world) :
  glob_json (listing (outputs w)) = [] ->
  exists w',
    reducer w = Ok w' /\
    outputs w' = outputs w /\
    console w' = console w ++ [Print no_records_message].
Proof.
  intros Hg. rewrite (reducer_no_records _ Hg).
  eexists. split; [reflexivity|]. split; reflexivity.
Qed.

Lemma no_record_file_no_report_witness :
  glob_json (listing (outputs fresh_world)) = [] /\
  exists w',
    reducer fresh_world = Ok w' /\
    outputs w' = outputs fresh_world /\
    console w' = console fresh_world ++ [Print no_records_message].
Proof.
  split; [reflexivity|]. apply (no_record_file_no_report fresh_world).
  reflexivity.
Defined.

(** ** C3 *)

(** C3, as stated, fails: the order of two entries of equal count changes
    with the discovery order of the records.  The same two records,
    listed in the two possible orders, give two different reports. *)
Lemma tie_order_follows_discovery_order :
  Permutation (listing (outputs ab_world)) (listing (outputs ba_world)) /\
  report_of (reducer ab_world)
  = Some (File true (report_text [(1, 10); (2, 10)])) /\
  report_of (reducer ba_world)
  = Some (File true (report_text [(2, 10); (1, 10)])) /\
  report_of (reducer ab_world) <> report_of (reducer ba_world).
Proof.
  split; [apply perm_swap|].
  split; [reflexivity|]. split; [reflexivity|].
  vm_compute. discriminate.
Qed.

(** C3, amended.  The ranked report of a merged mapping is the first 6
    entries of the mapping's entries sorted by count, descending: the
    sorted list is a permutation of the entries, counts never increase
    along it, entries of equal count keep the order they have in the
    merged mapping (its insertion order), the report has 6 entries or all
    of them if there are fewer, and no entry left out has a larger count
    than one that is kept.  For the merged counts 1:10, 2:10, 3:9, 4:8,
    5:7, 6:6, 7:5, inserted in this order, the report has exactly 6
    entries, key 7 is left out, and key 1 comes before key 2.  A run of
    [reducer] over at least one record file writes the report of the
    mapping it merged. *)
Theorem report_is_stable_top6 (merged : dict) :
  (forall w w',
     reducer w = Ok w' -> glob_json (listing (outputs w)) <> [] ->
     exists cs readable,
       contributions (listing (outputs w)) (glob_json (listing (outputs w)))
       = Ok cs /\
       report_of (Ok w')
       = Some (File readable
                 (report_text (top6 (add_all (merged_items cs) []))))) /\
  Permutation (sorted_by_count_desc merged) merged /\
  descending (sorted_by_count_desc merged) /\
  (forall c, with_count c (sorted_by_count_desc merged) = with_count c merged) /\
  length (top6 merged) = Nat.min 6 (length merged) /\
  (forall a b, In a (top6 merged) ->
               In b (skipn 6 (sorted_by_count_desc merged)) ->
               snd b <= snd a) /\
  top6 [(1, 10); (2, 10); (3, 9); (4, 8); (5, 7); (6, 6); (7, 5)]
  = [(1, 10); (2, 10); (3, 9); (4, 8); (5, 7); (6, 6)].
Proof.
  split; [apply reducer_writes_top6|].
  split; [apply sorted_Permutation|].
  split; [apply sorted_descending|].
  split; [intros c; apply sorted_stable|].
  split.
  { unfold top6. rewrite length_take.
    rewrite (Permutation_length (sorted_Permutation merged)). reflexivity. }
  split; [|reflexivity].
  intros a b Ha Hb. unfold top6 in Ha.
  pose proof (sorted_descending merged) as Hs. unfold descending in Hs.
  rewrite <- (firstn_skipn 6 (sorted_by_count_desc merged)) in Hs.
  revert Ha Hb Hs.
  generalize (firstn 6 (sorted_by_count_desc merged)) as l1.
  generalize (skipn 6 (sorted_by_count_desc merged)) as l2.
  intros l2 l1. induction l1 as [|x l1 IH]; intros Ha Hb Hs; [destruct Ha|].
  simpl in Hs. apply StronglySorted_inv in Hs as [Hs Hx].
  destruct Ha as [<-|Ha]; [|apply IH; assumption].
  rewrite Forall_forall in Hx. apply Hx, list_elem_of_In, in_app_iff.
  right. exact Hb.
Qed.

Lemma report_is_stable_top6_witness :
  length (top6 [(2, 10); (7, 5); (1, 10)]) = 3%nat /\
  with_count 10 (sorted_by_count_desc [(2, 10); (7, 5); (1, 10)])
  = [(2, 10); (1, 10)].
Proof.
  destruct (report_is_stable_top6 [(2, 10); (7, 5); (1, 10)])
    as (_ & _ & _ & Hstable & Hlen & _).
  split; [exact Hlen|]. rewrite Hstable. reflexivity.
Defined.

(** ** C4 *)

(** C4, as stated, fails for a file that exists but cannot be opened:
    [mapper] raises [PermissionError], and the exception leaves the pool,
    [run_mappers] and [main], although the sibling file is readable. *)
Lemma unreadable_file_aborts_pipeline :
  mapper locked_world "locked.txt"
  = ([Print "Mapper started for data_path/locked.txt"], Raise PermissionError) /\
  open_read (data locked_world) "ok.txt" = Ok "2"%string /\
  main [] locked_world = Raise PermissionError /\
  main [Dispatch; Dispatch; Complete 1] locked_world = Raise PermissionError.
Proof. repeat split; reflexivity. Qed.

(** C4, amended.  For every file path on which [open] raises
    [FileNotFoundError], the target not existing, [mapper] returns an
    empty mapping after printing a file-not-found line, and raises
    nothing: in a pool in which every file is such a path or a file whose
    text is read, every slot holds the mapping of its own file, the empty
    mapping for a missing one. *)
Theorem missing_file_gives_empty_mapping (w : world) (name : string)
    (files : list string) (max_workers : nat) (sched : list pool_event) :
  open_read (data w) name = Raise FileNotFoundError ->
  (1 <= max_workers)%nat ->
  (forall n, In n files ->
     open_read (data w) n = Raise FileNotFoundError
     \/ exists text, open_read (data w) n = Ok text) ->
  mapper w name
  = ([Print ("Mapper started for " +:+ path_join (DATA_DIR w) name);
      Print ("Error: File not found at " +:+ path_join (DATA_DIR w) name)],
     Ok []) /\
  frequency w name = [] /\
  snd (executor_map (mapper w) files max_workers sched)
  = Ok (map (frequency w) files).
Proof.
  intros Hmiss Hw Hfiles.
  split; [apply mapper_missing, Hmiss|].
  split; [unfold frequency; rewrite Hmiss; reflexivity|].
  rewrite executor_map_results by exact Hw.
  apply gather_all_ok. intros n Hn.
  destruct (Hfiles n Hn) as [Hnone|[text Ht]].
  - rewrite (mapper_missing _ _ Hnone). unfold frequency.
    rewrite Hnone. reflexivity.
  - rewrite (mapper_readable _ _ _ Ht). reflexivity.
Qed.

Lemma missing_file_gives_empty_mapping_witness :
  open_read (data two_files_world) "gone.txt" = Raise FileNotFoundError /\
  snd (executor_map (mapper two_files_world) ["a.txt"; "gone.txt"; "b.txt"]
         2 [Dispatch; Dispatch; Complete 1; Dispatch; Complete 2])
  = Ok [[(3, 1); (5, 1)]; []; [(5, 1); (7, 1)]].
Proof.
  split; [reflexivity|].
  refine (proj2 (proj2 (missing_file_gives_empty_mapping two_files_world
            "gone.txt" ["a.txt"; "gone.txt"; "b.txt"] 2
            [Dispatch; Dispatch; Complete 1; Dispatch; Complete 2] _ _ _))).
  - reflexivity.
  - lia.
  - intros n [<-|[<-|[<-|[]]]].
    + right. eexists. reflexivity.
    + left. reflexivity.
    + right. eexists. reflexivity.
Defined.

(** ** C5 *)

(** C5.  Let the discovered record files hold the documents that
    [json.dump] writes for the frequency mappings [ms].  Then the merge
    loop of [reducer] returns, touching nothing, a merged mapping with
    unique keys in which the count of every [k] is the sum of the counts
    that the records give to [k], a record without [k] counting for 0,
    and whose keys are the union of the keys of the records.  The records
    [{1:2, 2:1}] and [{1:1, 3:4}] merge to [{1:3, 2:1, 3:4}]. *)
Theorem merged_is_pointwise_sum (w : world) (names : list string)
    (ms : list dict) :
  Forall2 (fun name m =>
             open_read (listing (outputs w)) name = Ok (json_dump m))
          names ms ->
  Forall (fun m => NoDup (keys m)) ms ->
  exists merged,
    merge_files names [] w = Ok (merged, w) /\
    NoDup (keys merged) /\
    (forall k, count_of k merged = sum_counts k ms) /\
    (forall k, In k (keys merged) <-> exists m, In m ms /\ In k (keys m)) /\
    (ms = [[(1, 2); (2, 1)]; [(1, 1); (3, 4)]] ->
     merged = [(1, 3); (2, 1); (3, 4)]).
Proof.
  intros Hfiles Hnd.
  exists (add_all (concat ms) []).
  split.
  { apply merge_files_all_decoded.
    clear -Hfiles Hnd. induction Hfiles as [|name m names ms Ho _ IH].
    - constructor.
    - apply Forall_cons in Hnd as [Hm Hnd].
      constructor; [|apply IH, Hnd].
      apply contribution_of_dump; assumption. }
  split; [apply NoDup_keys_add_all; constructor|].
  split.
  { intros k. rewrite count_of_add_all, (total_concat _ _ Hnd). reflexivity. }
  split.
  { intros k. rewrite In_keys_add_all, In_keys_concat. simpl. tauto. }
  intros ->. reflexivity.
Qed.

Lemma merged_is_pointwise_sum_witness :
  merge_files ["mapper_output_0.json"; "mapper_output_1.json"] [] merge_world
  = Ok ([(1, 3); (2, 1); (3, 4)], merge_world).
Proof.
  destruct (merged_is_pointwise_sum merge_world
              ["mapper_output_0.json"; "mapper_output_1.json"]
              [[(1, 2); (2, 1)]; [(1, 1); (3, 4)]])
    as (merged & Hm & _ & _ & _ & Hex).
  - repeat constructor.
  - constructor; [unique_keys|constructor; [unique_keys|constructor]].
  - rewrite Hm, (Hex eq_refl). reflexivity.
Defined.

(** ** C6 *)

(** C6.  For every readable file, [mapper] prints its two progress lines
    and nothing else, and returns a mapping with unique keys in which
    the count of every integer [n] is the number of lines of the file
    that parse as [n] once stripped; an integer is a key exactly when
    some line parses as it, so a line that does not parse, a blank one
    included, adds nothing.  The text with the lines 3, abc, blank, 5
    gives [{3:1, 5:1}]. *)
Theorem mapper_counts_parsed_lines (w : world) (name text : string) :
  open_read (data w) name = Ok text ->
  exists counts,
    mapper w name
    = ([Print ("Mapper started for " +:+ path_join (DATA_DIR w) name);
        Print ("Mapper finished for " +:+ path_join (DATA_DIR w) name)],
       Ok counts) /\
    NoDup (keys counts) /\
    (forall n, count_of n counts = Z.of_nat (occurrences n (readlines text))) /\
    (forall n, In n (keys counts) <-> (0 < occurrences n (readlines text))%nat) /\
    (text = skip_text -> counts = [(3, 1); (5, 1)]).
Proof.
  intros Ho. exists (count_lines (readlines text) []).
  split.
  { rewrite (mapper_readable _ _ _ Ho). unfold frequency. rewrite Ho.
    reflexivity. }
  rewrite count_lines_spec.
  split; [apply NoDup_keys_add_all; constructor|].
  split.
  { intros n. rewrite count_of_add_all, total_parsed_lines. reflexivity. }
  split.
  { intros n. rewrite In_keys_add_all, In_keys_parsed_lines. simpl. tauto. }
  intros ->. reflexivity.
Qed.

Lemma mapper_counts_parsed_lines_witness :
  open_read (data two_files_world) "a.txt" = Ok skip_text /\
  snd (mapper two_files_world "a.txt") = Ok [(3, 1); (5, 1)].
Proof.
  split; [reflexivity|].
  destruct (mapper_counts_parsed_lines two_files_world "a.txt" skip_text
              eq_refl) as (counts & Hm & _ & _ & _ & Hex).
  rewrite Hm, (Hex eq_refl). reflexivity.
Defined.

(** ** C7 *)

(** C7, as stated, fails.  With a data file that cannot be opened the
    pool returns no sequence of results: the exception of the one call
    leaves [map], with four workers as with one, and no record is
    written.  And with every file read, a directory standing at the name
    of a record stops the store with [IsADirectoryError]. *)
Lemma unread_file_leaves_no_results :
  data_files locked_world = ["locked.txt"; "ok.txt"] /\
  snd (executor_map (glob_mapper locked_world) (data_files locked_world) 4
         [Dispatch; Dispatch; Complete 1; Complete 0])
  = Raise PermissionError /\
  snd (executor_map (glob_mapper locked_world) (data_files locked_world) 1 [])
  = Raise PermissionError /\
  run_mappers [Dispatch; Dispatch; Complete 1; Complete 0] locked_world
  = Raise PermissionError /\
  data_files blocked_world = ["ok.txt"] /\
  snd (executor_map (glob_mapper blocked_world) (data_files blocked_world) 4 [])
  = Ok [[(2, 1)]] /\
  run_mappers [] blocked_world = Raise IsADirectoryError.
Proof. repeat split; reflexivity. Qed.

(** C7, amended.  Let every data file be read.  Whatever the number of
    workers (at least one) and whatever the schedule of the workers, the
    pool returns one result per data file, in the order of the files: the
    [i]-th result is the mapping that [mapper] returns for the [i]-th
    file.  If moreover, at the name of each of these records, the reducer
    directory holds nothing or a file that may be opened, [run_mappers],
    whose pool has 4 workers, stores the [i]-th result in the record file
    named after the index [i]. *)
Theorem results_keep_input_order (w : world) (max_workers : nat)
    (pool_sched sched : list pool_event) :
  (1 <= max_workers)%nat ->
  (forall name, In name (data_files w) ->
     exists text, open_read (data w) name = Ok text) ->
  snd (executor_map (glob_mapper w) (data_files w) max_workers pool_sched)
  = Ok (map (frequency w) (data_files w)) /\
  (forall i name, data_files w !! i = Some name ->
     snd (glob_mapper w name) = Ok (frequency w name)) /\
  ((forall i, (i < length (data_files w))%nat ->
      writable (listing (outputs w)) (mapper_output i) = true) ->
   exists w',
     run_mappers sched w = Ok w' /\
     forall i name, data_files w !! i = Some name ->
       dir_lookup (mapper_output i) (listing (outputs w'))
       = Some (File true (json_dump (frequency w name)))).
Proof.
  intros Hw Hread.
  assert (Hmap : forall name, In name (data_files w) ->
                   snd (glob_mapper w name) = Ok (frequency w name)).
  { intros name Hin. destruct (Hread name Hin) as [text Ht].
    rewrite glob_mapper_result, (mapper_readable _ _ _ Ht). reflexivity. }
  split.
  { rewrite executor_map_results by exact Hw. apply gather_all_ok, Hmap. }
  split.
  { intros i name Hi. apply Hmap, list_elem_of_In.
    apply list_elem_of_lookup. exists i. exact Hi. }
  intros Hnd.
  destruct (run_mappers_spec sched w Hread Hnd) as (w' & Hrun & _ & Hfiles).
  exists w'. split; [exact Hrun|exact Hfiles].
Qed.

Lemma results_keep_input_order_witness :
  data_files two_files_world = ["a.txt"; "b.txt"] /\
  snd (executor_map (glob_mapper two_files_world) (data_files two_files_world) 3
         [Dispatch; Dispatch; Complete 1; Complete 0])
  = Ok [[(3, 1); (5, 1)]; [(5, 1); (7, 1)]] /\
  exists w',
    run_mappers [Dispatch; Complete 0] two_files_world = Ok w' /\
    forall i name, data_files two_files_world !! i = Some name ->
      dir_lookup (mapper_output i) (listing (outputs w'))
      = Some (File true (json_dump (frequency two_files_world name))).
Proof.
  split; [reflexivity|].
  destruct (results_keep_input_order two_files_world 3
              [Dispatch; Dispatch; Complete 1; Complete 0]
              [Dispatch; Complete 0]) as (Hres & _ & Hrun).
  - lia.
  - intros name [<-|[<-|[]]]; eexists; reflexivity.
  - split; [exact Hres|]. apply Hrun.
    intros i Hi. change (length (data_files two_files_world)) with 2%nat in Hi.
    destruct i as [|[|i]]; [reflexivity|reflexivity|lia].
Defined.

(** ** C8 *)

(** C8.  For every frequency mapping [m] (a [dict]: its keys are unique),
    [json.load] reads the document that [json.dump] wrote for [m] as the
    object with the same members, its keys being the decimal strings of
    the keys of [m]; [int] turns every such key back into the key it came
    from, so that merging the object into the empty mapping gives [m]
    itself, same keys, same counts, same order, and merging it into any
    mapping adds the entries of [m].  A record file written into a
    directory and still readable there is decoded to [m]. *)
Theorem record_round_trip (m : dict) :
  NoDup (keys m) ->
  json_load (json_dump m) = Ok (stringify m) /\
  decode_items (stringify m) = Some m /\
  merge_items (stringify m) [] = Ok m /\
  (forall final_counts,
     merge_items (stringify m) final_counts = Ok (add_all m final_counts)) /\
  (forall name d d',
     dir_write name (json_dump m) d = Ok d' ->
     (forall text, dir_lookup name d <> Some (File false text)) ->
     open_read d' name = Ok (json_dump m) /\
     contribution d' name = Ok (Some m)).
Proof.
  intros Hnd.
  split; [apply json_load_dump, Hnd|].
  split; [apply decode_items_stringify|].
  split.
  { rewrite merge_items_spec, decode_items_stringify.
    rewrite (add_all_fresh m []) by exact Hnd. reflexivity. }
  split.
  { intros fc. rewrite merge_items_spec, decode_items_stringify. reflexivity. }
  intros name d d' Hw Hr.
  assert (Ho : open_read d' name = Ok (json_dump m)).
  { unfold open_read. rewrite (dir_write_lookup _ _ _ _ Hw).
    apply dir_write_inv in Hw as [-> _]. reflexivity. }
  split; [exact Ho|]. apply contribution_of_dump; assumption.
Qed.

Lemma record_round_trip_witness :
  json_load (json_dump [(3, 1); (-5, 12); (0, 7)])
  = Ok [("3", 1); ("-5", 12); ("0", 7)]%string /\
  merge_items [("3", 1); ("-5", 12); ("0", 7)]%string []
  = Ok [(3, 1); (-5, 12); (0, 7)].
Proof.
  destruct (record_round_trip [(3, 1); (-5, 12); (0, 7)])
    as (Hload & _ & Hmerge & _).
  - unique_keys.
  - split; [exact Hload|exact Hmerge].
Defined.

(** ** C9 *)

(** C9.  Merging the record files in any other discovery order gives a
    merged mapping with exactly the same (key, count) entries; and if
    the merge does not return in one order (a file raises an exception
    that [reducer] does not handle), it does not return in any other. *)
Theorem merge_order_irrelevant (w : world) (names names' : list string) :
  Permutation names names' ->
  merge_agree (merge_files names [] w) (merge_files names' [] w).
Proof.
  intros Hp. unfold merge_agree.
  pose proof (merge_files_spec names [] w) as H1.
  pose proof (merge_files_spec names' [] w) as H2.
  destruct (contributions (listing (outputs w)) names) as [cs|e|] eqn:E1.
  - destruct (contributions_Permutation _ _ _ _ Hp E1) as (cs' & E2 & Hcs).
    rewrite E2 in H2. destruct H1 as [ls1 ->]. destruct H2 as [ls2 ->].
    apply add_all_Permutation, merged_items_Permutation, Hcs.
  - rewrite H1.
    destruct (contributions (listing (outputs w)) names') as [cs'|e'|] eqn:E2.
    + destruct (contributions_Permutation _ _ _ _ (Permutation_sym Hp) E2)
        as (cs & E1' & _). congruence.
    + rewrite H2. exact I.
    + rewrite H2. exact I.
  - rewrite H1.
    destruct (contributions (listing (outputs w)) names') as [cs'|e'|] eqn:E2.
    + destruct (contributions_Permutation _ _ _ _ (Permutation_sym Hp) E2)
        as (cs & E1' & _). congruence.
    + rewrite H2. exact I.
    + rewrite H2. exact I.
Qed.

Lemma merge_order_irrelevant_witness :
  same_entries [(1, 3); (2, 1); (3, 4)] [(1, 3); (3, 4); (2, 1)].
Proof.
  exact (merge_order_irrelevant merge_world
           ["mapper_output_0.json"; "mapper_output_1.json"]
           ["mapper_output_1.json"; "mapper_output_0.json"]
           (perm_swap _ _ _)).
Defined.

(** ** C10 *)

(** C10.  Discovery returns only names that end in [.json], so never
    [final_output.txt].  After a run of [reducer] that wrote its report,
    the discovered names and what each of them contributes to the merge
    are what they were before, and a second run over the same directory
    writes the same report again. *)
Theorem report_is_never_a_record (w w' : world) :
  reducer w = Ok w' ->
  ~ In "final_output.txt"%string (glob_json (listing (outputs w'))) /\
  (forall name, In name (glob_json (listing (outputs w'))) ->
     has_suffix ".json" name = true) /\
  glob_json (listing (outputs w')) = glob_json (listing (outputs w)) /\
  contributions (listing (outputs w')) (glob_json (listing (outputs w')))
  = contributions (listing (outputs w)) (glob_json (listing (outputs w))) /\
  exists w'', reducer w' = Ok w'' /\ listing (outputs w'') = listing (outputs w').
Proof.
  intros Hr.
  split.
  { intros Hin. apply glob_json_suffix in Hin. discriminate Hin. }
  split; [intros name; apply glob_json_suffix|].
  apply reducer_inv in Hr as [[Hg ->]|(d & cs & d' & ls & Ho & Hg & Hc & Hw & ->)].
  - cbn [print emit outputs]. split; [reflexivity|]. split; [reflexivity|].
    rewrite reducer_no_records by exact Hg.
    eexists. split; reflexivity.
  - cbn [emit set_outputs outputs listing]. rewrite Ho. cbn [listing].
    assert (Hglob : glob_json d' = glob_json d).
    { eapply dir_write_glob_json; [|exact Hw]. reflexivity. }
    assert (Hcs : contributions d' (glob_json d') = contributions d (glob_json d)).
    { rewrite Hglob. apply contributions_ext. intros name Hin.
      apply (dir_write_other _ _ _ _ _ Hw).
      intros ->. apply glob_json_suffix in Hin. discriminate Hin. }
    split; [exact Hglob|]. split; [exact Hcs|].
    destruct (reducer_run (emit ls (set_outputs (Some d') w)) d' d' cs)
      as [ls' Hrun].
    + reflexivity.
    + rewrite Hglob. exact Hg.
    + rewrite Hcs. exact Hc.
    + apply (dir_write_again _ _ _ _ Hw).
    + rewrite Hrun. eexists. split; reflexivity.
Qed.

Lemma report_is_never_a_record_witness :
  exists w',
    reducer merge_world = Ok w' /\
    glob_json (listing (outputs w'))
    = ["mapper_output_0.json"; "mapper_output_1.json"]%string /\
    exists w'', reducer w' = Ok w'' /\ listing (outputs w'') = listing (outputs w').
Proof.
  destruct (reducer merge_world) as [w'| |] eqn:E;
    [|vm_compute in E; discriminate..].
  exists w'. split; [reflexivity|].
  destruct (report_is_never_a_record merge_world w' E)
    as (_ & _ & Hg & _ & Hagain).
  split; [rewrite Hg; reflexivity|exact Hagain].
Defined.

(* ================================================================== *)
(** * Further properties *)

(** ** [load_dotenv] *)

Lemma dotenv_lines_keeps (lines : list string) (environ : gmap string string)
    (name value : string) :
  environ !! name = Some value ->
  fst (dotenv_lines lines environ) !! name = Some value.
Proof.
  revert environ. induction lines as [|raw rest IH]; intros environ H; [exact H|].
  cbn [dotenv_lines].
  destruct (String.eqb (strip raw) "" || is_comment (strip raw))%bool; [auto|].
  destruct (split_eq (strip raw)) as [[key val]|]; [|auto].
  destruct (negb (String.eqb (strip key) "")
            && bool_decide (environ !! strip key = None))%bool eqn:E; [|auto].
  destruct (has_nul (strip key) || has_nul _)%bool; [exact H|].
  apply IH. apply andb_prop in E as [_ E]. apply bool_decide_eq_true in E.
  rewrite lookup_insert_ne; [exact H|]. congruence.
Qed.

Lemma dotenv_lines_lookup (lines : list string) (environ : gmap string string)
    (name : string) :
  snd (dotenv_lines lines environ) = None ->
  fst (dotenv_lines lines environ) !! name
  = match environ !! name with
    | Some value => Some value
    | None => first_binding name lines
    end.
Proof.
  revert environ. induction lines as [|raw rest IH]; intros environ Hok.
  { simpl. destruct (environ !! name); reflexivity. }
  cbn [dotenv_lines first_binding] in Hok |- *. unfold dotenv_binding.
  destruct (String.eqb (strip raw) "" || is_comment (strip raw))%bool; [auto|].
  destruct (split_eq (strip raw)) as [[key val]|]; [|auto].
  set (k := strip key) in *.
  set (v := strip_char apostrophe (strip_char quote (strip val))) in *.
  destruct (String.eqb_spec k "") as [Hk|Hk]; cbn [negb andb] in Hok |- *; [auto|].
  destruct (bool_decide (environ !! k = None)) eqn:E.
  - apply bool_decide_eq_true in E.
    destruct (has_nul k || has_nul v)%bool; [discriminate Hok|].
    rewrite (IH _ Hok).
    destruct (String.eqb_spec k name) as [->|Hne].
    + rewrite lookup_insert_eq, E. reflexivity.
    + rewrite lookup_insert_ne by exact Hne. reflexivity.
  - apply bool_decide_eq_false in E. rewrite (IH _ Hok).
    destruct (String.eqb_spec k name) as [->|Hne]; [|reflexivity].
    destruct (environ !! name); [reflexivity|contradiction].
Qed.

Lemma dotenv_lines_again (lines : list string) (environ : gmap string string) :
  dotenv_lines lines (fst (dotenv_lines lines environ))
  = dotenv_lines lines environ.
Proof.
  revert environ. induction lines as [|raw rest IH]; intros environ; [reflexivity|].
  pose proof (dotenv_lines_keeps (raw :: rest) environ) as Hkeep.
  cbn [dotenv_lines] in Hkeep |- *.
  destruct (String.eqb (strip raw) "" || is_comment (strip raw))%bool; [apply IH|].
  destruct (split_eq (strip raw)) as [[key val]|]; [|apply IH].
  set (k := strip key) in *.
  set (v := strip_char apostrophe (strip_char quote (strip val))) in *.
  destruct (String.eqb_spec k "") as [Hk|Hk]; cbn [negb andb] in Hkeep |- *;
    [apply IH|].
  destruct (bool_decide (environ !! k = None)) eqn:E.
  - destruct (has_nul k || has_nul v)%bool eqn:En.
    + cbn [fst]. rewrite ?E, ?En. reflexivity.
    + assert (Hin : fst (dotenv_lines rest (<[k:=v]> environ)) !! k = Some v).
      { apply dotenv_lines_keeps, lookup_insert_eq. }
      rewrite bool_decide_eq_false_2 by (rewrite Hin; discriminate).
      apply IH.
  - apply bool_decide_eq_false in E.
    destruct (environ !! k) as [v0|] eqn:Ek; [|contradiction].
    rewrite bool_decide_eq_false_2; [apply IH|].
    rewrite (Hkeep k v0 Ek). discriminate.
Qed.

(** X1.  [load_dotenv] never changes or removes a variable that is already
    in the environment, whatever stands at the path. *)
Theorem load_dotenv_keeps_environment (dotenv_path : string)
    (file : option entry) (environ : gmap string string)
    (name value : string) :
  environ !! name = Some value ->
  fst (load_dotenv dotenv_path file environ) !! name = Some value.
Proof.
  intros H. unfold load_dotenv.
  destruct file as [[[|] text|]|]; try exact H.
  pose proof (dotenv_lines_keeps (readlines text) environ name value H) as Hk.
  destruct (dotenv_lines (readlines text) environ) as [environ' [e|]]; exact Hk.
Qed.

Lemma load_dotenv_keeps_environment_witness :
  fst (load_dotenv ".env" (Some (File true sample_dotenv)) exported_environ)
    !! "DATA_PATH"%string
  = Some "/exported/data"%string.
Proof.
  apply load_dotenv_keeps_environment. reflexivity.
Defined.

(** X2.  After [load_dotenv] read a file to its end, a variable has the
    value it had in the environment, or else the value of the first line
    of the file that assigns it, or else is still absent. *)
Theorem load_dotenv_first_assignment_wins (dotenv_path text : string)
    (environ : gmap string string) (name : string) :
  snd (load_dotenv dotenv_path (Some (File true text)) environ) = [] ->
  fst (load_dotenv dotenv_path (Some (File true text)) environ) !! name
  = match environ !! name with
    | Some value => Some value
    | None => first_binding name (readlines text)
    end.
Proof.
  unfold load_dotenv.
  pose proof (dotenv_lines_lookup (readlines text) environ name) as H.
  destruct (dotenv_lines (readlines text) environ) as [environ' [e|]];
    cbn [fst snd] in *; [discriminate|].
  intros _. apply H. reflexivity.
Qed.

Lemma load_dotenv_first_assignment_wins_witness :
  fst (load_dotenv ".env" (Some (File true sample_dotenv)) ∅)
    !! "DATA_PATH"%string
  = Some "/data/in"%string.
Proof.
  rewrite load_dotenv_first_assignment_wins; reflexivity.
Defined.

(** X3.  Loading the same file a second time changes nothing: the
    environment and the warning, if any, are those of the first load. *)
Theorem load_dotenv_idempotent (dotenv_path : string) (file : option entry)
    (environ : gmap string string) :
  load_dotenv dotenv_path file (fst (load_dotenv dotenv_path file environ))
  = load_dotenv dotenv_path file environ.
Proof.
  unfold load_dotenv. destruct file as [[[|] text|]|]; try reflexivity.
  pose proof (dotenv_lines_again (readlines text) environ) as H.
  destruct (dotenv_lines (readlines text) environ) as [environ' [e|]];
    cbn [fst] in *; rewrite H; reflexivity.
Qed.

(** X4.  A variable exported in the environment keeps its value in the
    configuration whatever [.env] holds. *)
Theorem exported_variable_wins (dotenv : option entry)
    (environ : gmap string string) (data : directory)
    (outputs : option directory) (data_path project_path : string) :
  environ !! "DATA_PATH"%string = Some data_path ->
  environ !! "PROJECT_PATH"%string = Some project_path ->
  DATA_DIR (startup dotenv environ data outputs) = data_path /\
  PROJECT_PATH (startup dotenv environ data outputs) = project_path /\
  REDUCER_DIR (startup dotenv environ data outputs)
  = path_join project_path "outputs".
Proof.
  intros Hd Hp. unfold REDUCER_DIR, startup, environ_get. cbn [DATA_DIR PROJECT_PATH].
  rewrite (load_dotenv_keeps_environment _ _ _ _ _ Hd).
  rewrite (load_dotenv_keeps_environment _ _ _ _ _ Hp).
  repeat split; reflexivity.
Qed.

Lemma exported_variable_wins_witness :
  DATA_DIR (startup (Some (File true sample_dotenv)) exported_environ [] None)
  = "/exported/data"%string /\
  REDUCER_DIR (startup (Some (File true sample_dotenv)) exported_environ [] None)
  = "/exported/proj/outputs"%string.
Proof.
  destruct (exported_variable_wins (Some (File true sample_dotenv))
              exported_environ [] None "/exported/data" "/exported/proj")
    as (Hd & _ & Hr); [reflexivity|reflexivity|].
  split; [exact Hd|exact Hr].
Defined.

(** X5.  When [.env] is read without a warning, each of the two paths is
    the exported value if there is one, else the value of the first line
    of [.env] that assigns the variable, else the placeholder. *)
Theorem configuration_falls_back_to_dotenv (text : string)
    (environ : gmap string string) (data : directory)
    (outputs : option directory) :
  console (startup (Some (File true text)) environ data outputs) = [] ->
  DATA_DIR (startup (Some (File true text)) environ data outputs)
  = match environ !! "DATA_PATH"%string with
    | Some value => value
    | None =>
        match first_binding "DATA_PATH" (readlines text) with
        | Some value => value
        | None => "data_path"%string
        end
    end /\
  PROJECT_PATH (startup (Some (File true text)) environ data outputs)
  = match environ !! "PROJECT_PATH"%string with
    | Some value => value
    | None =>
        match first_binding "PROJECT_PATH" (readlines text) with
        | Some value => value
        | None => "project_path"%string
        end
    end.
Proof.
  unfold startup, environ_get. cbn [DATA_DIR PROJECT_PATH console]. intros Hok.
  rewrite !(load_dotenv_first_assignment_wins _ _ _ _ Hok).
  split.
  - destruct (environ !! "DATA_PATH"%string); reflexivity.
  - destruct (environ !! "PROJECT_PATH"%string); reflexivity.
Qed.

Lemma configuration_falls_back_to_dotenv_witness :
  DATA_DIR (startup (Some (File true sample_dotenv)) ∅ [] None)
  = "/data/in"%string /\
  PROJECT_PATH (startup (Some (File true sample_dotenv)) ∅ [] None)
  = "/home/me/proj"%string.
Proof.
  destruct (configuration_falls_back_to_dotenv sample_dotenv ∅ [] None)
    as [Hd Hp]; [reflexivity|].
  split; [exact Hd|exact Hp].
Defined.

(** *** Quoted values *)

Lemma split_eq_app (key rest : string) :
  split_eq key = None ->
  split_eq (key +:+ String "=" rest) = Some (key, rest).
Proof.
  induction key as [|c key IH]; intros H.
  - reflexivity.
  - rewrite app_cons. cbn [split_eq] in H |- *.
    destruct (Ascii.eqb c "="); [discriminate|].
    destruct (split_eq key) as [[]|]; [discriminate|].
    rewrite IH by reflexivity. reflexivity.
Qed.

Lemma rstrip_char_last (q : ascii) (s : string) :
  rstrip_char q (s +:+ String q "") = rstrip_char q s.
Proof.
  induction s as [|a s IH].
  - rewrite app_empty_l. cbn [rstrip_char]. rewrite Ascii.eqb_refl. reflexivity.
  - rewrite app_cons. cbn [rstrip_char]. rewrite IH. reflexivity.
Qed.

Lemma rstrip_char_length (q : ascii) (s : string) :
  (String.length (rstrip_char q s) <= String.length s)%nat.
Proof.
  induction s as [|a s IH]; [cbn; lia|]. cbn [rstrip_char].
  destruct (rstrip_char q s); [destruct (Ascii.eqb a q)|]; cbn in *; lia.
Qed.

Lemma lstrip_char_length (q : ascii) (s : string) :
  (String.length (lstrip_char q s) <= String.length s)%nat.
Proof.
  induction s as [|a s IH]; [cbn; lia|]. cbn [lstrip_char].
  destruct (Ascii.eqb a q); cbn in *; lia.
Qed.

(** A string that [strip_char] leaves alone has no [q] at either end. *)
Lemma strip_char_fixed (q : ascii) (s : string) :
  strip_char q s = s -> lstrip_char q s = s /\ rstrip_char q s = s.
Proof.
  unfold strip_char. intros H.
  assert (Hl : lstrip_char q s = s).
  { destruct s as [|a s]; [reflexivity|]. cbn [lstrip_char] in H |- *.
    destruct (Ascii.eqb a q); [|reflexivity]. exfalso.
    apply (f_equal String.length) in H. cbn in H.
    pose proof (rstrip_char_length q (lstrip_char q s)).
    pose proof (lstrip_char_length q s). lia. }
  split; [exact Hl|]. rewrite Hl in H. exact H.
Qed.

Lemma strip_char_wrapped (q : ascii) (s : string) :
  strip_char q s = s ->
  strip_char q (String q (s +:+ String q "")) = s.
Proof.
  intros H. apply strip_char_fixed in H as [Hl Hr].
  unfold strip_char. cbn [lstrip_char]. rewrite Ascii.eqb_refl.
  destruct s as [|a s].
  - rewrite app_empty_l. cbn [lstrip_char]. rewrite Ascii.eqb_refl. reflexivity.
  - rewrite app_cons. cbn [lstrip_char] in Hl |- *.
    destruct (Ascii.eqb a q) eqn:Ea.
    + exfalso. apply (f_equal String.length) in Hl. cbn in Hl.
      pose proof (lstrip_char_length q s). lia.
    + rewrite <- app_cons, rstrip_char_last. exact Hr.
Qed.

(** The assignment of a line [KEY = "value"] or [KEY = value]. *)
Lemma dotenv_binding_quoted (raw name_part value_part key value : string) :
  strip raw = name_part +:+ String "=" value_part ->
  split_eq name_part = None ->
  is_comment name_part = false ->
  strip name_part = key -> key <> ""%string ->
  strip value_part = String quote (value +:+ String quote "")
  \/ strip value_part = value ->
  strip_char quote value = value -> strip_char apostrophe value = value ->
  dotenv_binding raw = Some (key, value).
Proof.
  intros Hraw Hsplit Hcom Hkey Hne Hval Hq Ha.
  unfold dotenv_binding. rewrite Hraw.
  destruct name_part as [|c k].
  { exfalso. apply Hne. rewrite <- Hkey. reflexivity. }
  rewrite app_cons. cbn [String.eqb is_comment] in Hcom |- *.
  rewrite Hcom. cbn [orb]. rewrite <- app_cons.
  rewrite (split_eq_app _ _ Hsplit), Hkey.
  destruct (String.eqb_spec key ""); [contradiction|].
  destruct Hval as [-> | ->].
  - rewrite (strip_char_wrapped _ _ Hq), Ha. reflexivity.
  - rewrite Hq, Ha. reflexivity.
Qed.

(** The loop over the lines of a file goes on, after lines that raised
    nothing, with the environment they left. *)
Lemma dotenv_lines_app (before rest : list string)
    (environ : gmap string string) :
  snd (dotenv_lines before environ) = None ->
  dotenv_lines (before ++ rest) environ
  = dotenv_lines rest (fst (dotenv_lines before environ)).
Proof.
  revert environ. induction before as [|raw before IH]; intros environ H;
    [reflexivity|].
  cbn [app dotenv_lines] in H |- *.
  destruct (String.eqb (strip raw) "" || is_comment (strip raw))%bool; [auto|].
  destruct (split_eq (strip raw)) as [[key val]|]; [|auto].
  destruct (negb (String.eqb (strip key) "")
            && bool_decide (environ !! strip key = None))%bool; [|auto].
  destruct (has_nul (strip key) || has_nul _)%bool; [discriminate H|auto].
Qed.

(** A line that assigns to a variable that is not set sets it. *)
Lemma dotenv_lines_binding (raw key value : string) (rest : list string)
    (environ : gmap string string) :
  dotenv_binding raw = Some (key, value) ->
  environ !! key = None -> has_nul key = false -> has_nul value = false ->
  dotenv_lines (raw :: rest) environ
  = dotenv_lines rest (<[key := value]> environ).
Proof.
  unfold dotenv_binding. intros Hb He Hk Hv. cbn [dotenv_lines].
  destruct (String.eqb (strip raw) "" || is_comment (strip raw))%bool;
    [discriminate|].
  destruct (split_eq (strip raw)) as [[k v]|]; [|discriminate].
  destruct (String.eqb (strip k) ""); [discriminate|].
  injection Hb as -> ->. cbn [negb andb].
  rewrite (bool_decide_eq_true_2 _ He), Hk, Hv. reflexivity.
Qed.

(** X6.  Let a file hold a line of the form [KEY = "value"], with any
    white space around the name, around the quoted value and around the
    line, or the line [KEY = value] with the value written without
    quotes.  If the variable is not set when the loop of [load_dotenv]
    reaches the line, the lines before it having raised nothing, then
    after [load_dotenv] the variable of the stripped name holds the text
    between the double quotes, inner spaces included, whatever the
    lines after it are.  (The name is not empty and holds no equals
    sign, the line is no comment, the value itself has no quote of
    either kind at its ends, and neither holds a NUL.) *)
Theorem dotenv_unwraps_double_quotes (dotenv_path text : string)
    (before after : list string)
    (raw name_part value_part key value : string)
    (environ : gmap string string) :
  readlines text = before ++ raw :: after ->
  snd (dotenv_lines before environ) = None ->
  fst (dotenv_lines before environ) !! key = None ->
  strip raw = name_part +:+ String "=" value_part ->
  split_eq name_part = None ->
  is_comment name_part = false ->
  strip name_part = key -> key <> ""%string ->
  strip value_part = String quote (value +:+ String quote "")
  \/ strip value_part = value ->
  strip_char quote value = value -> strip_char apostrophe value = value ->
  has_nul key = false -> has_nul value = false ->
  fst (load_dotenv dotenv_path (Some (File true text)) environ) !! key
  = Some value.
Proof.
  intros Hlines Hquiet Hunset Hraw Hsplit Hcom Hkey Hne Hval Hq Ha Hnk Hnv.
  pose proof (dotenv_binding_quoted _ _ _ _ _ Hraw Hsplit Hcom Hkey Hne Hval
                Hq Ha) as Hb.
  assert (Hset : fst (dotenv_lines (readlines text) environ) !! key
                 = Some value).
  { rewrite Hlines, (dotenv_lines_app _ _ _ Hquiet).
    rewrite (dotenv_lines_binding _ _ _ _ _ Hb Hunset Hnk Hnv).
    apply dotenv_lines_keeps, lookup_insert_eq. }
  unfold load_dotenv.
  destruct (dotenv_lines (readlines text) environ) as [environ' [e|]];
    exact Hset.
Qed.

Lemma dotenv_unwraps_double_quotes_witness :
  fst (load_dotenv ".env" (Some (File true quoted_dotenv)) ∅)
    !! "DATA_PATH"%string
  = Some "/data/my files "%string.
Proof.
  apply (dotenv_unwraps_double_quotes ".env" quoted_dotenv
           ["# paths" +:+ String LF ""]
           ["DATA_PATH=/other" +:+ String LF ""]
           ("  DATA_PATH = "
            +:+ String quote ("/data/my files " +:+ String quote
                 ("  " +:+ String LF "")))
           "DATA_PATH "
           (" " +:+ String quote ("/data/my files " +:+ String quote ""))).
  - reflexivity.
  - reflexivity.
  - reflexivity.
  - reflexivity.
  - reflexivity.
  - reflexivity.
  - reflexivity.
  - discriminate.
  - left. reflexivity.
  - reflexivity.
  - reflexivity.
  - reflexivity.
  - reflexivity.
Defined.

(** ** More on [mapper] *)

Lemma readlines_to_crlf (text : string) :
  has_cr text = false -> readlines (to_crlf text) = readlines text.
Proof.
  induction text as [|c r IH]; intros H; [reflexivity|].
  cbn [has_cr] in H. apply orb_false_elim in H as [Hc Hr].
  cbn [to_crlf]. destruct (Ascii.eqb c LF) eqn:El.
  - cbn [readlines]. change (Ascii.eqb CR LF) with false.
    change (Ascii.eqb CR CR) with true. change (Ascii.eqb LF LF) with true.
    cbv iota. rewrite El. rewrite (IH Hr). reflexivity.
  - cbn [readlines]. rewrite El, Hc, (IH Hr). reflexivity.
Qed.

(** X7.  A file with CR LF line ends gives the mapping of the same file
    with LF line ends. *)
Theorem mapper_ignores_crlf (w w' : world) (name name' text : string) :
  has_cr text = false ->
  open_read (data w) name = Ok text ->
  open_read (data w') name' = Ok (to_crlf text) ->
  snd (mapper w' name') = snd (mapper w name).
Proof.
  intros Hcr Ho Ho'.
  rewrite (mapper_readable _ _ _ Ho), (mapper_readable _ _ _ Ho').
  unfold frequency. rewrite Ho, Ho', (readlines_to_crlf _ Hcr). reflexivity.
Qed.

Lemma mapper_ignores_crlf_witness :
  snd (mapper crlf_world "n.txt") = Ok [(5, 2); (7, 1)].
Proof.
  rewrite (mapper_ignores_crlf lf_world crlf_world "n.txt" "n.txt"
             ("5" +:+ String LF ("7" +:+ String LF ("5" +:+ String LF ""))));
    reflexivity.
Defined.

Lemma parsed_lines_Permutation (lines lines' : list string) :
  Permutation lines lines' ->
  Permutation (parsed_lines lines) (parsed_lines lines').
Proof. intros H. unfold parsed_lines. apply Permutation_flat_map, H. Qed.

(** X8.  The loop of [mapper] gives the same entries in whatever order the
    lines come. *)
Theorem count_lines_order_irrelevant (lines lines' : list string) :
  Permutation lines lines' ->
  same_entries (count_lines lines []) (count_lines lines' []).
Proof.
  intros H. rewrite !count_lines_spec.
  apply add_all_Permutation, parsed_lines_Permutation, H.
Qed.

Lemma count_lines_order_irrelevant_witness :
  same_entries [(5, 2); (7, 1)] [(7, 1); (5, 2)].
Proof.
  exact (count_lines_order_irrelevant ["5"; "7"; "5"]%string ["7"; "5"; "5"]%string
           (perm_swap _ _ _)).
Defined.

Lemma sum_values_dict_add (k c : Z) (d : dict) :
  sum_values (dict_add k c d) = sum_values d + c.
Proof.
  unfold sum_values.
  induction d as [|[k' v] d IH]; cbn [dict_add map fold_right snd]; [lia|].
  destruct (k' =? k); cbn [map fold_right snd]; rewrite ?IH; lia.
Qed.

Lemma sum_values_add_all (items : list (Z * Z)) (d : dict) :
  sum_values (add_all items d) = sum_values d + sum_values items.
Proof.
  unfold add_all. revert d.
  induction items as [|[k c] items IH]; intros d; cbn [fold_left fst snd].
  - change (sum_values []) with 0. lia.
  - rewrite IH, sum_values_dict_add.
    change (sum_values ((k, c) :: items)) with (c + sum_values items). lia.
Qed.

Lemma sum_values_parsed_lines (lines : list string) :
  sum_values (parsed_lines lines) = Z.of_nat (length (parsed_lines lines)).
Proof.
  unfold sum_values, parsed_lines.
  induction lines as [|l lines IH]; [reflexivity|].
  cbn [flat_map]. destruct (py_int (strip l)); [|exact IH].
  cbn [app map fold_right length snd]. rewrite IH. lia.
Qed.

(** X9.  For every readable file, the counts of the mapping add up to the
    number of lines that parse as an integer, and every count is at
    least 1. *)
Theorem mapper_counts_every_parsed_line_once (w : world) (name text : string) :
  open_read (data w) name = Ok text ->
  snd (mapper w name) = Ok (frequency w name) /\
  sum_values (frequency w name)
  = Z.of_nat (length (parsed_lines (readlines text))) /\
  (forall n c, In (n, c) (frequency w name) -> 1 <= c).
Proof.
  intros Ho. split; [rewrite (mapper_readable _ _ _ Ho); reflexivity|].
  unfold frequency. rewrite Ho, count_lines_spec. split.
  - rewrite sum_values_add_all, sum_values_parsed_lines. reflexivity.
  - intros n c Hin.
    assert (Hnd : NoDup (keys (add_all (parsed_lines (readlines text)) []))).
    { apply NoDup_keys_add_all. constructor. }
    pose proof Hin as Hk. apply (in_map fst) in Hk. cbn [fst] in Hk.
    change (map fst ?d) with (keys d) in Hk.
    apply In_keys_add_all in Hk as [[]|Hk].
    apply In_keys_parsed_lines in Hk.
    apply (dict_get_In _ _ _ Hnd) in Hin.
    pose proof (count_of_add_all n (parsed_lines (readlines text)) []) as Hc.
    unfold count_of at 1 in Hc. rewrite Hin in Hc.
    rewrite total_parsed_lines in Hc. cbn in Hc. lia.
Qed.

Lemma mapper_counts_every_parsed_line_once_witness :
  open_read (data two_files_world) "a.txt" = Ok skip_text /\
  sum_values (frequency two_files_world "a.txt") = 2.
Proof.
  split; [reflexivity|].
  destruct (mapper_counts_every_parsed_line_once two_files_world "a.txt"
              skip_text eq_refl) as (_ & Hsum & _).
  rewrite Hsum. reflexivity.
Defined.

Lemma keys_add_all (items : list (Z * Z)) (d : dict) :
  keys (add_all items d) = keys d ++ first_seen (keys d) (keys items).
Proof.
  unfold add_all. revert d.
  induction items as [|[k c] items IH]; intros d; cbn [fold_left fst snd].
  - change (keys []) with (@nil Z). cbn [first_seen].
    rewrite app_nil_r. reflexivity.
  - change (keys ((k, c) :: items)) with (k :: keys items).
    cbn [first_seen]. rewrite IH, keys_dict_add.
    destruct (existsb (Z.eqb k) (keys d)) eqn:Ex.
    + apply existsb_exists in Ex as (k' & Hin & Hk). apply Z.eqb_eq in Hk. subst k'.
      destruct (dict_get k d) eqn:Eg; [reflexivity|].
      apply dict_get_None in Eg. contradiction.
    + destruct (dict_get k d) eqn:Eg.
      * exfalso. assert (Hin : In k (keys d)).
        { destruct (in_dec Z.eq_dec k (keys d)) as [Hin|Hout]; [exact Hin|].
          apply dict_get_None in Hout. congruence. }
        assert (existsb (Z.eqb k) (keys d) = true).
        { apply existsb_exists. exists k. split; [exact Hin|apply Z.eqb_refl]. }
        congruence.
      * rewrite <- app_assoc. cbn [app]. f_equal. f_equal.
        (* first_seen only looks at membership in [seen] *)
        assert (Hext : forall ks s1 s2,
                  (forall x, In x s1 <-> In x s2) ->
                  first_seen s1 ks = first_seen s2 ks).
        { clear. induction ks as [|x ks IHks]; intros s1 s2 Hs; [reflexivity|].
          cbn [first_seen].
          assert (E : existsb (Z.eqb x) s1 = existsb (Z.eqb x) s2).
          { apply eq_true_iff_eq. rewrite !existsb_exists.
            split; intros (y & Hy & Hxy); exists y; (split; [|exact Hxy]);
              apply Hs; exact Hy. }
          rewrite E. destruct (existsb (Z.eqb x) s2); [apply IHks, Hs|].
          f_equal. apply IHks. intros y. simpl. rewrite Hs. reflexivity. }
        apply Hext. intros x. rewrite in_app_iff. simpl. tauto.
Qed.

(** X10.  The keys of the mapping come in the order in which the integers
    first appear in the file. *)
Theorem mapper_keys_in_order_of_appearance (w : world) (name text : string) :
  open_read (data w) name = Ok text ->
  snd (mapper w name) = Ok (frequency w name) /\
  keys (frequency w name)
  = first_seen [] (keys (parsed_lines (readlines text))).
Proof.
  intros Ho. split; [rewrite (mapper_readable _ _ _ Ho); reflexivity|].
  unfold frequency. rewrite Ho, count_lines_spec, keys_add_all. reflexivity.
Qed.

Lemma mapper_keys_in_order_of_appearance_witness :
  keys (frequency lf_world "n.txt") = [5; 7].
Proof.
  destruct (mapper_keys_in_order_of_appearance lf_world "n.txt"
              ("5" +:+ String LF ("7" +:+ String LF ("5" +:+ String LF "")))
              eq_refl) as [_ Hk].
  rewrite Hk. reflexivity.
Defined.

(** ** More on [run_mappers] *)

Lemma gather_raise {A B : Type} (fn : A -> list line * result B)
    (l : list A) (e : exn) :
  (forall a, In a l -> (exists b, snd (fn a) = Ok b) \/ snd (fn a) = Raise e) ->
  (exists a, In a l /\ snd (fn a) = Raise e) ->
  gather (map (fun a => Some (snd (fn a))) l) = Raise e.
Proof.
  induction l as [|a l IH]; intros Hall (a0 & Hin & Ha0); [destruct Hin|].
  cbn [map gather].
  destruct (Hall a (or_introl eq_refl)) as [[b Hb]|Hr].
  - rewrite Hb. cbn [mbind result_bind].
    rewrite IH; [reflexivity| |].
    + intros x Hx. apply Hall. right. exact Hx.
    + destruct Hin as [->|Hin]; [congruence|]. exists a0. split; assumption.
  - rewrite Hr. reflexivity.
Qed.

Lemma gather_ok_inv {A B : Type} (fn : A -> list line * result B)
    (l : list A) (rs : list B) :
  gather (map (fun a => Some (snd (fn a))) l) = Ok rs ->
  Forall2 (fun a r => snd (fn a) = Ok r) l rs.
Proof.
  revert rs. induction l as [|a l IH]; intros rs H.
  - injection H as <-. constructor.
  - cbn [map gather] in H.
    destruct (snd (fn a)) as [b| |] eqn:Ea; try discriminate.
    cbn [mbind result_bind] in H.
    destruct (gather (map (fun a => Some (snd (fn a))) l)) as [bs| |];
      try discriminate.
    injection H as <-. constructor; [exact Ea|]. apply IH. reflexivity.
Qed.

Lemma data_file_opens (w : world) (name : string) :
  In name (data_files w) ->
  (exists text, open_read (data w) name = Ok text)
  \/ open_read (data w) name = Raise PermissionError.
Proof.
  unfold data_files. intros H. apply filter_In in H as [Hg H].
  unfold glob_star in Hg. apply in_map_iff in Hg as ([n e] & <- & Hg).
  apply filter_In in Hg as [_ Hg]. cbn [fst] in *.
  apply andb_prop in Hg as [Hg _].
  unfold isfile in H. unfold open_read. rewrite Hg.
  destruct (dir_lookup n (data w)) as [[[|] text|]|]; try discriminate.
  - left. eexists. reflexivity.
  - right. reflexivity.
Qed.

(** X11.  When one of the data files cannot be read, [run_mappers], and so
    [main], raise [PermissionError] whatever the schedule of the
    workers. *)
Theorem unreadable_data_file_raises (sched : list pool_event) (w : world)
    (name : string) :
  In name (data_files w) ->
  (forall text, open_read (data w) name <> Ok text) ->
  run_mappers sched w = Raise PermissionError /\
  main sched w = Raise PermissionError.
Proof.
  intros Hin Hbad.
  assert (Hrun : run_mappers sched w = Raise PermissionError).
  { rewrite run_mappers_unfold by (intros E; rewrite E in Hin; destruct Hin).
    cbv zeta. rewrite executor_map_results by lia.
    rewrite (gather_raise _ _ PermissionError); [reflexivity| |].
    - intros n Hn. rewrite glob_mapper_result.
      change (mapper (set_outputs _ w) n) with (mapper w n).
      destruct (data_file_opens w n Hn) as [[text Ht]|Hp].
      + left. rewrite (mapper_readable _ _ _ Ht). eexists. reflexivity.
      + right. unfold mapper, mapper_path. rewrite Hp. reflexivity.
    - exists name. split; [exact Hin|]. rewrite glob_mapper_result.
      change (mapper (set_outputs _ w) name) with (mapper w name).
      destruct (data_file_opens w name Hin) as [[text Ht]|Hp].
      + exfalso. apply (Hbad text Ht).
      + unfold mapper, mapper_path. rewrite Hp. reflexivity. }
  split; [exact Hrun|]. unfold main. rewrite Hrun. reflexivity.
Qed.

Lemma unreadable_data_file_raises_witness :
  run_mappers [Dispatch; Dispatch; Complete 1; Complete 0] locked_world
  = Raise PermissionError.
Proof.
  apply (unreadable_data_file_raises _ locked_world "locked.txt").
  - left. reflexivity.
  - intros text H. discriminate H.
Defined.

Lemma listing_makedirs (o : option directory) :
  listing (makedirs o) = listing o.
Proof. destruct o; reflexivity. Qed.

(** What a run of [save_results] that returns has done. *)
Lemma save_results_inv (rs : list dict) (i : nat) (w w' : world) :
  save_results i rs w = Ok w' ->
  data w' = data w /\ DATA_DIR w' = DATA_DIR w /\
  PROJECT_PATH w' = PROJECT_PATH w /\
  (forall j r, rs !! j = Some r ->
     dir_lookup (mapper_output (i + j)) (listing (outputs w'))
     = Some (File true (json_dump r))) /\
  (forall n, (forall j, (j < length rs)%nat -> n <> mapper_output (i + j)) ->
     dir_lookup n (listing (outputs w')) = dir_lookup n (listing (outputs w))).
Proof.
  revert i w. induction rs as [|r rs IH]; intros i w Hs.
  - injection Hs as <-. repeat split; try reflexivity.
    intros j r Hj. discriminate.
  - cbn [save_results] in Hs.
    destruct (outputs w) as [d|] eqn:Eo; [|discriminate].
    cbn [write_file] in Hs.
    destruct (dir_write (mapper_output i) (json_dump r) d) as [d1| |] eqn:Ew;
      try discriminate.
    cbn [mbind result_bind] in Hs.
    apply IH in Hs as (Hd & Hdd & Hpp & Hin & Hout).
    cbn [print emit set_outputs data DATA_DIR PROJECT_PATH outputs listing]
      in Hd, Hdd, Hpp, Hout.
    split; [exact Hd|]. split; [exact Hdd|]. split; [exact Hpp|].
    cbn [listing]. split.
    + intros [|j] r' Hj.
      * injection Hj as <-. rewrite Nat.add_0_r, Hout.
        -- apply (dir_write_lookup _ _ _ _ Ew).
        -- intros j _ E. apply mapper_output_inj in E. lia.
      * replace (i + S j)%nat with (S i + j)%nat by lia. apply Hin, Hj.
    + intros n Hn. rewrite Hout.
      * apply (dir_write_other _ _ _ _ _ Ew).
        specialize (Hn O). rewrite Nat.add_0_r in Hn. apply Hn. simpl. lia.
      * intros j Hj. replace (S i + j)%nat with (i + S j)%nat by lia.
        apply Hn. simpl. lia.
Qed.

(** What a run of [run_mappers] that returns has done. *)
Lemma run_mappers_inv (sched : list pool_event) (w w' : world) :
  run_mappers sched w = Ok w' ->
  data w' = data w /\ DATA_DIR w' = DATA_DIR w /\
  PROJECT_PATH w' = PROJECT_PATH w /\
  ((data_files w = [] /\ outputs w' = makedirs (outputs w))
   \/ exists rs w1 ls,
        data_files w <> [] /\
        Forall2 (fun name r => snd (mapper w name) = Ok r) (data_files w) rs /\
        save_results 0 rs (emit ls (set_outputs (makedirs (outputs w)) w))
        = Ok w1 /\
        w' = print "All mappers have completed." w1).
Proof.
  intros Hr. destruct (data_files w) as [|n ns] eqn:Ed.
  - rewrite (run_mappers_no_input _ _ Ed) in Hr. injection Hr as <-.
    repeat split; try reflexivity. left. split; reflexivity.
  - rewrite run_mappers_unfold in Hr by congruence. cbv zeta in Hr.
    rewrite executor_map_results in Hr by lia.
    destruct (gather _) as [rs| |] eqn:Eg; try discriminate.
    cbn [mbind result_bind] in Hr.
    destruct (save_results 0 rs _) as [w1| |] eqn:Es; try discriminate.
    cbn [mbind result_bind] in Hr. injection Hr as <-.
    pose proof (save_results_inv _ _ _ _ Es) as (Hd & Hdd & Hpp & _).
    cbn [print emit set_outputs data DATA_DIR PROJECT_PATH] in *.
    split; [exact Hd|]. split; [exact Hdd|]. split; [exact Hpp|].
    right. exists rs, w1. eexists. split; [congruence|].
    split; [|split; [exact Es|reflexivity]].
    rewrite <- Ed. apply gather_ok_inv in Eg. rewrite Ed in Eg. rewrite Ed.
    eapply Forall2_impl; [exact Eg|]. intros name r Hn.
    cbv beta in Hn. rewrite glob_mapper_result in Hn. exact Hn.
Qed.

(** X12.  A run of [run_mappers] that returns leaves the data directory as
    it was and, in the reducer directory, changes nothing but the record
    files of the indices it used: in particular a record left by an
    earlier run under a larger index is still there. *)
Theorem run_mappers_touches_only_its_records (sched : list pool_event)
    (w w' : world) :
  run_mappers sched w = Ok w' ->
  data w' = data w /\
  (forall n, (forall i, (i < length (data_files w))%nat -> n <> mapper_output i) ->
     dir_lookup n (listing (outputs w')) = dir_lookup n (listing (outputs w))) /\
  (forall j, (length (data_files w) <= j)%nat ->
     dir_lookup (mapper_output j) (listing (outputs w'))
     = dir_lookup (mapper_output j) (listing (outputs w))).
Proof.
  intros Hr.
  assert (Hmain : data w' = data w /\
    forall n, (forall i, (i < length (data_files w))%nat -> n <> mapper_output i) ->
      dir_lookup n (listing (outputs w')) = dir_lookup n (listing (outputs w))).
  { apply run_mappers_inv in Hr
      as (Hd & _ & _ & [[He Ho]|(rs & w1 & ls & Hne & Hrs & Hs & ->)]).
    - split; [exact Hd|]. intros n _. rewrite Ho, listing_makedirs. reflexivity.
    - split; [exact Hd|]. intros n Hn.
      apply save_results_inv in Hs as (_ & _ & _ & _ & Hout).
      cbn [print emit outputs]. rewrite Hout.
      + cbn [emit set_outputs outputs]. apply f_equal, listing_makedirs.
      + intros j Hj. apply Hn. rewrite (Forall2_length _ _ _ Hrs). exact Hj. }
  destruct Hmain as [Hd Hn]. split; [exact Hd|]. split; [exact Hn|].
  intros j Hj. apply Hn. intros i Hi E. apply mapper_output_inj in E. lia.
Qed.

Lemma run_mappers_touches_only_its_records_witness :
  exists w',
    run_mappers [] rerun_world = Ok w' /\
    dir_lookup "mapper_output_5.json" (listing (outputs w'))
    = Some (File true (json_dump [(9, 9)])) /\
    dir_lookup "notes.txt" (listing (outputs w')) = Some (File true "keep").
Proof.
  destruct (run_mappers [] rerun_world) as [w'| |] eqn:E;
    [|vm_compute in E; discriminate..].
  exists w'. split; [reflexivity|].
  destruct (run_mappers_touches_only_its_records [] rerun_world w' E)
    as (_ & Hother & Hstale).
  split.
  - refine (Hstale 5%nat _).
    change (length (data_files rerun_world)) with 2%nat. lia.
  - refine (Hother "notes.txt"%string _).
    intros i _ Hi. apply (f_equal (String.get 0)) in Hi. discriminate Hi.
Defined.

Lemma dir_write_same_content (name text : string) (d : directory) :
  is_entry_name name = true ->
  dir_lookup name d = Some (File true text) -> dir_write name text d = Ok d.
Proof.
  unfold dir_write. intros ->.
  induction d as [|[n e] d IH]; cbn [dir_lookup dir_store]; intros H;
    [discriminate|].
  destruct (String.eqb n name).
  - injection H as ->. reflexivity.
  - rewrite (IH H). reflexivity.
Qed.

(** Storing again records that are already there changes no file. *)
Lemma save_results_fixed (rs : list dict) (i : nat) (w : world) (d : directory) :
  outputs w = Some d ->
  (forall j r, rs !! j = Some r ->
     dir_lookup (mapper_output (i + j)) d = Some (File true (json_dump r))) ->
  exists ls, save_results i rs w = Ok (emit ls w).
Proof.
  revert i w. induction rs as [|r rs IH]; intros i w Ho Hin.
  - exists []. rewrite emit_nil. reflexivity.
  - destruct w as [dd pp da ou co]. cbn [outputs] in Ho. subst ou.
    cbn [save_results outputs write_file].
    pose proof (Hin O r eq_refl) as Hb. rewrite Nat.add_0_r in Hb.
    rewrite (dir_write_same_content _ _ _ (mapper_output_entry_name i) Hb).
    cbn [mbind result_bind].
    match goal with |- context [save_results (S i) rs ?w1] =>
      destruct (IH (S i) w1) as [ls Hs] end.
    + reflexivity.
    + intros j r' Hj. replace (S i + j)%nat with (i + S j)%nat by lia.
      apply Hin. exact Hj.
    + rewrite Hs. eexists. f_equal.
      unfold print, emit, set_outputs. cbn. rewrite <- app_assoc. reflexivity.
Qed.

Lemma mapper_ext (w w' : world) (name : string) :
  data w' = data w -> DATA_DIR w' = DATA_DIR w ->
  mapper w' name = mapper w name.
Proof. intros Hd Hp. unfold mapper, mapper_path. rewrite Hd, Hp. reflexivity. Qed.

(** X13.  Running [run_mappers] a second time, over the data it has just
    processed, returns as well and leaves the reducer directory as the
    first run left it: the records are overwritten with what they hold. *)
Theorem run_mappers_twice (sched sched' : list pool_event) (w w1 : world) :
  run_mappers sched w = Ok w1 ->
  exists w2, run_mappers sched' w1 = Ok w2 /\ outputs w2 = outputs w1.
Proof.
  intros Hr.
  pose proof (run_mappers_inv _ _ _ Hr)
    as (Hd & Hdd & _ & [[He Ho]|(rs & w0 & ls & Hne & Hrs & Hs & ->)]).
  - assert (He1 : data_files w1 = []) by (unfold data_files; rewrite Hd; exact He).
    rewrite (run_mappers_no_input _ _ He1). eexists. split; [reflexivity|].
    cbn [print emit set_outputs outputs]. rewrite Ho. destruct (outputs w); reflexivity.
  - set (w1 := print "All mappers have completed." w0) in *.
    assert (Hf : data_files w1 = data_files w) by (unfold data_files; rewrite Hd; reflexivity).
    rewrite run_mappers_unfold by (rewrite Hf; exact Hne). cbv zeta.
    rewrite executor_map_results by lia. rewrite Hf.
    assert (Hg : gather (map (fun a => Some (snd (glob_mapper
                   (set_outputs (makedirs (outputs w1)) w1) a))) (data_files w))
                 = Ok rs).
    { clear -Hrs Hd Hdd. induction Hrs as [|name r names rs Hn _ IH]; [reflexivity|].
      cbn [map gather]. rewrite glob_mapper_result.
      rewrite (mapper_ext w _ name) by (cbn [set_outputs data DATA_DIR]; assumption).
      rewrite Hn. cbn [mbind result_bind]. rewrite IH. reflexivity. }
    rewrite Hg. cbn [mbind result_bind].
    pose proof (save_results_inv _ _ _ _ Hs) as (_ & _ & _ & Hin & _).
    assert (Ho : exists d1, outputs w0 = Some d1).
    { destruct rs as [|r rs].
      - apply Forall2_length in Hrs.
        destruct (data_files w); [congruence|discriminate].
      - pose proof (Hin O r eq_refl) as Hb.
        destruct (outputs w0) as [d0|]; [eexists; reflexivity|discriminate]. }
    destruct Ho as [d1 Ho].
    destruct (save_results_fixed rs 0
                (emit (fst (executor_map (glob_mapper (set_outputs (makedirs (outputs w1)) w1))
                              (data_files w) 4 sched'))
                   (set_outputs (makedirs (outputs w1)) w1)) d1) as [ls' Hs'].
    + subst w1. cbn [print emit set_outputs outputs]. rewrite Ho. reflexivity.
    + intros j r Hj. specialize (Hin j r Hj). rewrite Ho in Hin. exact Hin.
    + rewrite Hs'. cbn [mbind result_bind]. eexists. split; [reflexivity|].
      subst w1. cbn [print emit set_outputs outputs]. rewrite Ho. reflexivity.
Qed.

Lemma run_mappers_twice_witness :
  exists w1 w2,
    run_mappers [Dispatch] two_files_world = Ok w1 /\
    run_mappers [Dispatch; Dispatch; Complete 1] w1 = Ok w2 /\
    outputs w2 = outputs w1.
Proof.
  destruct (run_mappers [Dispatch] two_files_world) as [w1| |] eqn:E;
    [|vm_compute in E; discriminate..].
  destruct (run_mappers_twice [Dispatch] [Dispatch; Dispatch; Complete 1]
              two_files_world w1 E) as (w2 & H2 & Ho).
  exists w1, w2. split; [reflexivity|]. split; [exact H2|exact Ho].
Defined.

(** ** More on [reducer] *)




Lemma contributions_app (d : directory) (xs ys : list string) :
  contributions d (xs ++ ys)
  = cs ← contributions d xs; cs' ← contributions d ys; Ok (cs ++ cs').
Proof.
  induction xs as [|x xs IH]; cbn [app contributions mbind result_bind].
  - destruct (contributions d ys); reflexivity.
  - destruct (contribution d x) as [c| |]; cbn [mbind result_bind]; try reflexivity.
    rewrite IH.
    destruct (contributions d xs) as [cs| |]; cbn [mbind result_bind];
      try reflexivity.
    destruct (contributions d ys); reflexivity.
Qed.

(** The first file whose failure is not handled ends the reducer. *)
Lemma reducer_raises (w : world) (before after : list string) (bad : string)
    (e : exn) :
  glob_json (listing (outputs w)) = before ++ bad :: after ->
  Forall (fun name => exists c, contribution (listing (outputs w)) name = Ok c)
         before ->
  contribution (listing (outputs w)) bad = Raise e ->
  reducer w = Raise e.
Proof.
  intros Hg Hb He.
  assert (Hc : contributions (listing (outputs w)) (before ++ bad :: after)
               = Raise e).
  { rewrite contributions_app.
    assert (Hcs : exists cs, contributions (listing (outputs w)) before = Ok cs).
    { clear -Hb. induction Hb as [|n ns [c Hc] _ [cs IH]].
      - exists []. reflexivity.
      - exists (c :: cs). cbn [contributions]. rewrite Hc. cbn [mbind result_bind].
        rewrite IH. reflexivity. }
    destruct Hcs as [cs ->]. cbn [mbind result_bind contributions].
    rewrite He. reflexivity. }
  unfold reducer. rewrite Hg.
  destruct (before ++ bad :: after) as [|n ns] eqn:E.
  { destruct before; discriminate. }
  pose proof (merge_files_spec (n :: ns) [] (print "Reducer started..." w)) as Hm.
  cbn [print emit outputs] in Hm. rewrite Hc in Hm.
  cbv zeta. unfold print in Hm |- *. rewrite Hm. reflexivity.
Qed.

Lemma decode_items_None (data : jobject) (key : string) :
  In key (keys data) -> py_int key = None -> decode_items data = None.
Proof.
  induction data as [|[k v] data IH]; intros Hin Hk; [destruct Hin|].
  cbn [decode_items]. destruct Hin as [<-|Hin].
  - cbn [fst] in Hk. rewrite Hk. reflexivity.
  - rewrite (IH Hin Hk). destruct (py_int k); reflexivity.
Qed.

(** X15.  A record that is a JSON object of integers but has a key that
    [int] rejects makes [reducer] raise [ValueError]: the [except] clause
    names [JSONDecodeError] only.  (The files discovered before it
    decode or are skipped.) *)
Theorem non_integer_key_raises (w : world) (before after : list string)
    (bad text key : string) (data : jobject) :
  glob_json (listing (outputs w)) = before ++ bad :: after ->
  Forall (fun name => exists c, contribution (listing (outputs w)) name = Ok c)
         before ->
  open_read (listing (outputs w)) bad = Ok text ->
  json_load text = Ok data ->
  In key (keys data) -> py_int key = None ->
  reducer w = Raise ValueError.
Proof.
  intros Hg Hb Ho Hl Hin Hk. apply (reducer_raises _ _ _ _ _ Hg Hb).
  unfold contribution. rewrite Ho. cbn [mbind result_bind]. rewrite Hl.
  cbn [mbind result_bind]. rewrite (decode_items_None _ _ Hin Hk). reflexivity.
Qed.

Lemma non_integer_key_raises_witness :
  reducer letter_key_world = Raise ValueError.
Proof.
  apply (non_integer_key_raises letter_key_world [] [] "mapper_output_0.json"
           ("{" +:+ String quote ("a" +:+ String quote ": 1}")) "a"
           [("a"%string, 1)]).
  - reflexivity.
  - constructor.
  - reflexivity.
  - reflexivity.
  - left. reflexivity.
  - reflexivity.
Defined.

(** X16.  A discovered name that is a directory, or a record file that may
    not be read, makes [reducer] raise [IsADirectoryError] or
    [PermissionError]: [glob] returns such names and the [except] clause
    does not name these exceptions. *)
Theorem unopenable_record_raises (w : world) (before after : list string)
    (bad : string) (e : exn) :
  glob_json (listing (outputs w)) = before ++ bad :: after ->
  Forall (fun name => exists c, contribution (listing (outputs w)) name = Ok c)
         before ->
  open_read (listing (outputs w)) bad = Raise e ->
  (e = IsADirectoryError \/ e = PermissionError) /\ reducer w = Raise e.
Proof.
  intros Hg Hb Ho.
  assert (He : e = IsADirectoryError \/ e = PermissionError).
  { assert (Hin : In bad (glob_json (listing (outputs w)))).
    { rewrite Hg. apply in_app_iff. right. left. reflexivity. }
    unfold glob_json in Hin. apply in_map_iff in Hin as ([n en] & Hn & Hin).
    apply filter_In in Hin as [Hin _]. cbn [fst] in Hn. subst n.
    unfold open_read in Ho.
    destruct (is_entry_name bad); [|discriminate].
    destruct (dir_lookup bad (listing (outputs w))) as [[[|] t|]|] eqn:El;
      try discriminate.
    - injection Ho as <-. right. reflexivity.
    - injection Ho as <-. left. reflexivity.
    - exfalso. clear -Hin El. induction (listing (outputs w)) as [|[n0 e0] d IH];
        [destruct Hin|].
      cbn [dir_lookup] in El. destruct (String.eqb_spec n0 bad) as [->|Hne];
        [discriminate|].
      destruct Hin as [[= ? ?]|Hin]; [congruence|]. apply IH; assumption. }
  split; [exact He|]. apply (reducer_raises _ _ _ _ _ Hg Hb).
  unfold contribution. rewrite Ho. cbn [mbind result_bind].
  destruct He as [-> | ->]; reflexivity.
Qed.

Lemma unopenable_record_raises_witness :
  reducer json_directory_world = Raise IsADirectoryError.
Proof.
  apply (unopenable_record_raises json_directory_world [] [] "old.json").
  - reflexivity.
  - constructor.
  - reflexivity.
Defined.

(** ** The whole pipeline *)

Lemma substring_all (s : string) : substring 0 (String.length s) s = s.
Proof. induction s as [|c s IH]; [reflexivity|]. cbn. rewrite IH. reflexivity. Qed.

Lemma substring_skip (s t : string) (m : nat) :
  substring (String.length s) m (s +:+ t) = substring 0 m t.
Proof. induction s as [|c s IH]; [reflexivity|]. rewrite app_cons. cbn. exact IH. Qed.

Lemma has_suffix_app (s suffix : string) : has_suffix suffix (s +:+ suffix) = true.
Proof.
  unfold has_suffix. rewrite length_app_s.
  replace (String.length s + String.length suffix - String.length suffix)%nat
    with (String.length s) by lia.
  rewrite substring_skip, substring_all, String.eqb_refl.
  apply andb_true_intro. split; [apply Nat.leb_le; lia|reflexivity].
Qed.

Lemma mapper_output_discovered (i : nat) :
  globbed (mapper_output i) = true /\
  has_suffix ".json" (mapper_output i) = true.
Proof.
  split.
  - unfold globbed. rewrite mapper_output_entry_name. reflexivity.
  - unfold mapper_output. rewrite <- app_assoc_s. apply has_suffix_app.
Qed.

Lemma glob_json_none (d : directory) (name : string) :
  glob_json d = [] -> globbed name = true ->
  has_suffix ".json" name = true -> dir_lookup name d = None.
Proof.
  unfold glob_json. intros Hg Hh Hs.
  induction d as [|[n e] d IH]; [reflexivity|].
  cbn [List.filter map fst dir_lookup] in Hg |- *.
  destruct (String.eqb_spec n name) as [->|Hne].
  - rewrite Hh, Hs in Hg. discriminate.
  - apply IH. destruct (globbed n && has_suffix ".json" n)%bool;
      [discriminate|exact Hg].
Qed.

Lemma dir_lookup_app (name : string) (d d' : directory) :
  dir_lookup name (d ++ d')
  = match dir_lookup name d with
    | Some e => Some e
    | None => dir_lookup name d'
    end.
Proof.
  induction d as [|[n e] d IH]; [reflexivity|]. cbn [app dir_lookup].
  destruct (String.eqb n name); [reflexivity|exact IH].
Qed.

Lemma dir_write_fresh (name text : string) (d : directory) :
  is_entry_name name = true -> dir_lookup name d = None ->
  dir_write name text d = Ok (d ++ [(name, File true text)]).
Proof.
  unfold dir_write. intros ->.
  induction d as [|[n e] d IH]; cbn [dir_lookup dir_store app]; intros H;
    [reflexivity|].
  destruct (String.eqb n name); [discriminate|].
  rewrite (IH H). reflexivity.
Qed.

Lemma dir_lookup_stored (rs : list dict) (i j : nat) (r : dict) :
  rs !! j = Some r ->
  dir_lookup (mapper_output (i + j)) (stored_records i rs)
  = Some (File true (json_dump r)).
Proof.
  revert i j. induction rs as [|r0 rs IH]; intros i j Hj; [discriminate|].
  cbn [stored_records dir_lookup]. destruct j as [|j].
  - injection Hj as <-. rewrite Nat.add_0_r, String.eqb_refl. reflexivity.
  - destruct (String.eqb_spec (mapper_output i) (mapper_output (i + S j)))
      as [E|_].
    + apply mapper_output_inj in E. lia.
    + replace (i + S j)%nat with (S i + j)%nat by lia. apply IH, Hj.
Qed.

Lemma dir_lookup_stored_other (rs : list dict) (i : nat) (n : string) :
  (forall j, (j < length rs)%nat -> n <> mapper_output (i + j)) ->
  dir_lookup n (stored_records i rs) = None.
Proof.
  revert i. induction rs as [|r rs IH]; intros i Hn; [reflexivity|].
  cbn [stored_records dir_lookup].
  destruct (String.eqb_spec (mapper_output i) n) as [E|_].
  - exfalso. apply (Hn O); [simpl; lia|]. rewrite Nat.add_0_r. congruence.
  - apply IH. intros j Hj. replace (S i + j)%nat with (i + S j)%nat by lia.
    apply Hn. simpl. lia.
Qed.

Lemma glob_json_stored (rs : list dict) (i : nat) :
  glob_json (stored_records i rs) = map fst (stored_records i rs).
Proof.
  unfold glob_json. revert i. induction rs as [|r rs IH]; intros i; [reflexivity|].
  cbn [stored_records List.filter map fst].
  destruct (mapper_output_discovered i) as [-> ->]. cbn [andb map fst].
  rewrite IH. reflexivity.
Qed.

Lemma glob_json_app (d d' : directory) :
  glob_json (d ++ d') = glob_json d ++ glob_json d'.
Proof. unfold glob_json. rewrite List.filter_app, map_app. reflexivity. Qed.

(** Into a directory that holds none of the record names, [save_results]
    appends the records in index order. *)
Lemma save_results_fresh (rs : list dict) (i : nat) (w : world) (d : directory) :
  outputs w = Some d ->
  (forall j, (j < length rs)%nat -> dir_lookup (mapper_output (i + j)) d = None) ->
  exists ls,
    save_results i rs w
    = Ok (emit ls (set_outputs (Some (d ++ stored_records i rs)) w)).
Proof.
  revert i w d. induction rs as [|r rs IH]; intros i w d Ho Hf.
  - exists []. rewrite emit_nil. cbn [save_results stored_records].
    rewrite app_nil_r. destruct w. cbn in Ho. subst. reflexivity.
  - cbn [save_results stored_records]. rewrite Ho. cbn [write_file].
    rewrite dir_write_fresh;
      [|apply mapper_output_entry_name
       |specialize (Hf O); rewrite Nat.add_0_r in Hf; apply Hf; simpl; lia].
    cbn [mbind result_bind].
    match goal with |- context [save_results (S i) rs ?w1] =>
      destruct (IH (S i) w1 (d ++ [(mapper_output i, File true (json_dump r))]))
        as [ls Hs] end.
    + reflexivity.
    + intros j Hj. rewrite dir_lookup_app.
      replace (S i + j)%nat with (i + S j)%nat by lia.
      rewrite Hf by (simpl; lia). cbn [dir_lookup].
      destruct (String.eqb_spec (mapper_output i) (mapper_output (i + S j)))
        as [E|_]; [|reflexivity].
      apply mapper_output_inj in E. lia.
    + rewrite Hs. eexists. f_equal.
      unfold print, emit, set_outputs. cbn. rewrite <- !app_assoc. reflexivity.
Qed.

Lemma NoDup_keys_frequency (w : world) (name : string) :
  NoDup (keys (frequency w name)).
Proof.
  unfold frequency. destruct (open_read (data w) name); try constructor.
  rewrite count_lines_spec. apply NoDup_keys_add_all. constructor.
Qed.

Lemma count_of_frequency (n : Z) (w : world) (name : string) :
  count_of n (frequency w name) = Z.of_nat (occurrences n (lines_of w name)).
Proof.
  unfold frequency, lines_of. destruct (open_read (data w) name); try reflexivity.
  rewrite count_lines_spec, count_of_add_all, total_parsed_lines. reflexivity.
Qed.

Lemma sum_counts_frequency (n : Z) (w : world) (names : list string) :
  sum_counts n (map (frequency w) names)
  = Z.of_nat (fold_right Nat.add O
                (map (fun name => occurrences n (lines_of w name)) names)).
Proof.
  unfold sum_counts. induction names as [|name names IH]; [reflexivity|].
  cbn [map fold_right]. rewrite IH, count_of_frequency. lia.
Qed.

(** X17.  The whole pipeline.  Let the path of the reducer directory hold
    no pattern character of [glob], so that [reducer] looks for the
    records in the directory where [run_mappers] wrote them.  When there
    is at least one data file, every data file is read, the reducer
    directory holds no record yet and at the name of the report it holds
    nothing or a file that may be opened, [main] returns and
    [final_output.txt] holds the report of a merged mapping that gives to
    every integer the number of lines, over all the data files, that
    parse as it. *)
Theorem pipeline_reports_total_counts (sched : list pool_event) (w : world) :
  has_magic (REDUCER_DIR w) = false ->
  data_files w <> [] ->
  (forall name, In name (data_files w) ->
     exists text, open_read (data w) name = Ok text) ->
  glob_json (listing (outputs w)) = [] ->
  writable (listing (outputs w)) "final_output.txt" = true ->
  exists w' merged,
    main sched w = Ok w' /\
    dir_lookup "final_output.txt" (listing (outputs w'))
    = Some (File true (report_text (top6 merged))) /\
    NoDup (keys merged) /\
    (forall n, count_of n merged = Z.of_nat (total_occurrences n w)) /\
    (forall n, In n (keys merged) <-> (0 < total_occurrences n w)%nat).
Proof.
  intros _ Hne Hread Hglob Hrep.
  set (rs := map (frequency w) (data_files w)).
  set (d := listing (outputs w)) in *.
  set (d1 := d ++ stored_records 0 rs).
  (* the mapper stage *)
  assert (Hrun : exists ls, run_mappers sched w
                   = Ok (emit ls (set_outputs (Some d1) w))).
  { rewrite (run_mappers_unfold _ _ Hne). cbv zeta.
    rewrite executor_map_results by lia.
    rewrite (gather_all_ok _ (frequency w)).
    2:{ intros name Hin. destruct (Hread name Hin) as [text Ht].
        rewrite glob_mapper_result.
        change (mapper (set_outputs _ w) name) with (mapper w name).
        rewrite (mapper_readable _ _ _ Ht). reflexivity. }
    cbn [mbind result_bind]. fold rs.
    match goal with |- context [save_results 0 rs ?w1] =>
      destruct (save_results_fresh rs 0 w1 d) as [ls Hs] end.
    - cbn [emit set_outputs outputs]. subst d. destruct (outputs w); reflexivity.
    - intros j _. apply (glob_json_none _ _ Hglob);
        apply mapper_output_discovered.
    - rewrite Hs. cbn [mbind result_bind]. eexists. f_equal.
      unfold print, emit, set_outputs. cbn. rewrite <- !app_assoc. reflexivity. }
  destruct Hrun as [ls Hrun].
  (* what the reducer finds *)
  assert (Hg1 : glob_json d1 = map fst (stored_records 0 rs)).
  { subst d1. rewrite glob_json_app, Hglob, glob_json_stored. reflexivity. }
  assert (Hnames : forall (l : list dict) i,
            Forall (fun m => NoDup (keys m)) l ->
            (forall j r, l !! j = Some r ->
               dir_lookup (mapper_output (i + j)) d1
               = Some (File true (json_dump r))) ->
            contributions d1 (map fst (stored_records i l)) = Ok (map Some l)).
  { induction l as [|r l IH]; intros i Hnd Hl; [reflexivity|].
    apply Forall_cons in Hnd as [Hr Hnd].
    cbn [stored_records map fst contributions].
    rewrite (contribution_of_dump d1 _ r Hr).
    2:{ unfold open_read. specialize (Hl O r eq_refl).
        rewrite Nat.add_0_r in Hl.
        rewrite Hl, mapper_output_entry_name. reflexivity. }
    cbn [mbind result_bind]. rewrite (IH (S i) Hnd); [reflexivity|].
    intros j r' Hj. replace (S i + j)%nat with (i + S j)%nat by lia.
    apply Hl. exact Hj. }
  assert (Hnd : Forall (fun m => NoDup (keys m)) rs).
  { subst rs. apply Forall_forall. intros m Hm.
    apply list_elem_of_In, in_map_iff in Hm as (name & <- & _).
    apply NoDup_keys_frequency. }
  assert (Hcs : contributions d1 (glob_json d1) = Ok (map Some rs)).
  { rewrite Hg1. apply Hnames; [exact Hnd|].
    intros j r Hj. subst d1. rewrite dir_lookup_app.
    rewrite (glob_json_none _ _ Hglob) by apply mapper_output_discovered.
    apply (dir_lookup_stored rs 0 j r Hj). }
  assert (Hmi : merged_items (map Some rs) = concat rs).
  { unfold merged_items. rewrite map_map, map_id. reflexivity. }
  set (merged := add_all (concat rs) []).
  destruct (dir_write_ok "final_output.txt" (report_text (top6 merged)) d1)
    as [d2 Hw].
  { reflexivity. }
  { subst d1. unfold writable in *. rewrite dir_lookup_app.
    destruct (dir_lookup "final_output.txt" d) as [e|] eqn:E; [exact Hrep|].
    rewrite dir_lookup_stored_other; [reflexivity|].
    intros j _ E'.
    pose proof (proj2 (mapper_output_discovered (0 + j))) as Hs.
    rewrite <- E' in Hs. discriminate Hs. }
  destruct (reducer_run (emit ls (set_outputs (Some d1) w)) d1 d2 (map Some rs))
    as [ls' Hred].
  { reflexivity. }
  { rewrite Hg1. subst rs. destruct (data_files w); [congruence|discriminate]. }
  { exact Hcs. }
  { rewrite Hmi. exact Hw. }
  eexists. exists merged.
  split; [unfold main; rewrite Hrun; cbn [mbind result_bind]; exact Hred|].
  split.
  { cbn [emit set_outputs outputs listing]. apply (dir_write_lookup _ _ _ _ Hw). }
  split; [apply NoDup_keys_add_all; constructor|].
  split.
  - intros n. subst merged. rewrite count_of_add_all, (total_concat _ _ Hnd).
    subst rs. rewrite sum_counts_frequency. reflexivity.
  - intros n. subst merged. rewrite In_keys_add_all, In_keys_concat.
    unfold total_occurrences. subst rs. split.
    + intros [[]|(m & Hm & Hk)].
      apply in_map_iff in Hm as (name & <- & Hin).
      assert (Hpos : (0 < occurrences n (lines_of w name))%nat).
      { pose proof (count_of_frequency n w name) as Hc.
        pose proof (NoDup_keys_frequency w name) as Hnd'.
        unfold count_of in Hc.
        destruct (dict_get n (frequency w name)) as [v|] eqn:Eg.
        - destruct (Hread name Hin) as [text Ht].
          unfold frequency, lines_of in *. rewrite Ht in *.
          rewrite count_lines_spec in Hk.
          apply In_keys_add_all in Hk as [[]|Hk].
          apply In_keys_parsed_lines in Hk. exact Hk.
        - apply dict_get_None in Eg. contradiction. }
      clear -Hin Hpos. induction (data_files w) as [|x l IH]; [destruct Hin|].
      cbn [map fold_right]. destruct Hin as [->|Hin]; [lia|].
      specialize (IH Hin). lia.
    + intros Hpos. right.
      assert (Hex : exists name, In name (data_files w)
                      /\ (0 < occurrences n (lines_of w name))%nat).
      { clear -Hpos. induction (data_files w) as [|x l IH];
          [cbn in Hpos; lia|].
        cbn [map fold_right] in Hpos.
        destruct (Nat.eq_dec (occurrences n (lines_of w x)) O) as [E|E].
        - rewrite E in Hpos. destruct (IH Hpos) as (name & Hin & Hp).
          exists name. split; [right; exact Hin|exact Hp].
        - exists x. split; [left; reflexivity|lia]. }
      destruct Hex as (name & Hin & Hp).
      exists (frequency w name). split; [apply in_map, Hin|].
      destruct (Hread name Hin) as [text Ht].
      unfold frequency, lines_of in *. rewrite Ht in *.
      rewrite count_lines_spec. apply In_keys_add_all. right.
      apply In_keys_parsed_lines, Hp.
Qed.

Lemma pipeline_reports_total_counts_witness :
  exists w' merged,
    main [Dispatch; Complete 0] two_files_world = Ok w' /\
    dir_lookup "final_output.txt" (listing (outputs w'))
    = Some (File true (report_text (top6 merged))) /\
    count_of 5 merged = 2.
Proof.
  destruct (pipeline_reports_total_counts [Dispatch; Complete 0] two_files_world)
    as (w' & merged & Hm & Hrep & _ & Hc & _).
  - reflexivity.
  - discriminate.
  - intros name [<-|[<-|[]]]; eexists; reflexivity.
  - reflexivity.
  - reflexivity.
  - exists w', merged. split; [exact Hm|]. split; [exact Hrep|].
    rewrite Hc. reflexivity.
Defined.

(** ** The console of the mapper stage *)

Section PoolOutputFacts.
Context {A B : Type}.
Variable fn : A -> list line * result B.
Variable items : list A.

Lemma task_lines_app (l l' : list nat) :
  task_lines fn items (l ++ l') = task_lines fn items l ++ task_lines fn items l'.
Proof. unfold task_lines. rewrite map_app, concat_app. reflexivity. Qed.













End PoolOutputFacts.



